(** * update_model_index: a shallow embedding of tools/misc/update_model_index.py

    The tool turns the model tables of the [.md] documents under [configs/]
    into [.yml] descriptors and a top-level [model-index.yml], and tells a
    pre-commit hook through its exit status whether anything changed.

    Conventions of the embedding.
    - A Python [str] is a [string]: a sequence of characters with code
      points below 256.  On that range the character classes used by the
      tool ([str.strip], the regular expression class [\d]) are the ones
      defined below.
    - A Python exception is a value of [exn]; a computation that may raise
      returns a [result].
    - Floating-point numbers are not computed with: the two places where the
      tool touches them ([float(cell)] and [str(int(digits) * 0.01)]) are
      operations of an interface, [PyFloat].
    - The file system is a finite map from paths to file contents; the
      pieces of [os.path] and [glob] that look at the working directory or
      walk directories are parameters of the input/output section. *)

From Stdlib Require Import Ascii.
From stdpp Require Import base option list strings gmap sorting.

Local Open Scope char_scope.
Local Open Scope stdpp_scope.

(** ** Exceptions and results *)

Inductive exn : Type :=
  | IndexError
  | ValueError
  | UnboundLocalError
  | OverflowError
  | FileNotFoundError.

Inductive result (A : Type) : Type :=
  | Ok (a : A)
  | Raise (e : exn).
Arguments Ok {A} a.
Arguments Raise {A} e.

Global Instance result_ret : MRet result := λ A a, Ok a.
Global Instance result_bind : MBind result := λ A B k r,
  match r with
  | Ok a => k a
  | Raise e => Raise e
  end.
Global Instance result_fmap : FMap result := λ A B f r,
  match r with
  | Ok a => Ok (f a)
  | Raise e => Raise e
  end.

Definition or_raise {A : Type} (e : exn) (o : option A) : result A :=
  match o with
  | Some a => Ok a
  | None => Raise e
  end.

Definition is_ok {A : Type} (r : result A) : bool :=
  match r with
  | Ok _ => true
  | Raise _ => false
  end.

(** ** Python string operations *)

Module Str.

(** [s[n:]] and [s[:n]] *)
Fixpoint drop (n : nat) (s : string) : string :=
  match n, s with
  | 0, _ => s
  | S _, "" => ""
  | S n', String _ r => drop n' r
  end.

Fixpoint take (n : nat) (s : string) : string :=
  match n, s with
  | 0, _ => ""
  | S _, "" => ""
  | S n', String c r => String c (take n' r)
  end.

(** [s[l:r]] for [0 <= l], [0 <= r] *)
Definition slice (l r : nat) (s : string) : string :=
  take (r - l) (drop l s).

(** [s.startswith(sub)] *)
Fixpoint starts_with (sub s : string) : bool :=
  match sub, s with
  | "", _ => true
  | String _ _, "" => false
  | String a sub', String b s' => Ascii.eqb a b && starts_with sub' s'
  end.

(** [s.find(sub)]: the index of the first occurrence, [None] for -1 *)
Fixpoint find (sub s : string) : option nat :=
  if starts_with sub s then Some 0
  else match s with
       | "" => None
       | String _ r => S <$> find sub r
       end.

(** [s.find(sub, start)] for [0 <= start]; the index counts from the
    beginning of [s] *)
Definition find_from (sub s : string) (start : nat) : option nat :=
  if decide (start ≤ String.length s)
  then (λ k, start + k) <$> find sub (drop start s)
  else None.

(** [s.rfind(sub)] *)
Fixpoint rfind (sub s : string) : option nat :=
  match s with
  | "" => if starts_with sub s then Some 0 else None
  | String _ r =>
      match rfind sub r with
      | Some k => Some (S k)
      | None => if starts_with sub s then Some 0 else None
      end
  end.

(** [sub in s] *)
Definition contains (sub s : string) : bool := bool_decide (is_Some (find sub s)).

(** [s.index(sub, start)] *)
Definition index_from (sub s : string) (start : nat) : result nat :=
  or_raise ValueError (find_from sub s start).

(** [s.split(c)] for a separator of one character *)
Fixpoint split (c : ascii) (s : string) : list string :=
  match s with
  | "" => [""]
  | String a r =>
      if Ascii.eqb a c then "" :: split c r
      else match split c r with
           | [] => [String a ""]
           | w :: ws => String a w :: ws
           end
  end.

(** [s.split(c, 1)[0]]: what precedes the first [c] *)
Fixpoint before (c : ascii) (s : string) : string :=
  match s with
  | "" => ""
  | String a r => if Ascii.eqb a c then "" else String a (before c r)
  end.

(** White space in the sense of [str.isspace], below code point 256 *)
Definition is_space (a : ascii) : bool :=
  let n := nat_of_ascii a in
  bool_decide (9 ≤ n ≤ 13 ∨ 28 ≤ n ≤ 32 ∨ n = 133 ∨ n = 160).

Fixpoint lstrip_by (p : ascii → bool) (s : string) : string :=
  match s with
  | "" => ""
  | String a r => if p a then lstrip_by p r else s
  end.

Fixpoint rstrip_by (p : ascii → bool) (s : string) : string :=
  match s with
  | "" => ""
  | String a r =>
      match rstrip_by p r with
      | "" => if p a then "" else String a ""
      | r' => String a r'
      end
  end.

Definition strip_by (p : ascii → bool) (s : string) : string :=
  rstrip_by p (lstrip_by p s).

(** [s.strip()] *)
Definition strip : string → string := strip_by is_space.

Fixpoint mem (a : ascii) (chars : string) : bool :=
  match chars with
  | "" => false
  | String c r => Ascii.eqb a c || mem a r
  end.

(** [s.strip(chars)] *)
Definition strip_chars (chars : string) : string → string :=
  strip_by (λ a, mem a chars).

(** [s.replace(old, new, 1)] for a non-empty [old] *)
Definition replace_first (old new s : string) : string :=
  match find old s with
  | Some k => take k s +:+ new +:+ drop (k + String.length old) s
  | None => s
  end.

(** [s.replace(c, new)] for [old] of one character *)
Fixpoint replace_char (c : ascii) (new s : string) : string :=
  match s with
  | "" => ""
  | String a r =>
      if Ascii.eqb a c then new +:+ replace_char c new r
      else String a (replace_char c new r)
  end.

(** [s.upper()] and [s.capitalize()], on letters below code point 128
    (they are applied to the metric vocabulary only) *)
Definition is_lower (a : ascii) : bool :=
  let n := nat_of_ascii a in bool_decide (97 ≤ n ≤ 122).
Definition is_upper (a : ascii) : bool :=
  let n := nat_of_ascii a in bool_decide (65 ≤ n ≤ 90).
Definition upper_char (a : ascii) : ascii :=
  if is_lower a then ascii_of_nat (nat_of_ascii a - 32) else a.
Definition lower_char (a : ascii) : ascii :=
  if is_upper a then ascii_of_nat (nat_of_ascii a + 32) else a.

Fixpoint map (f : ascii → ascii) (s : string) : string :=
  match s with
  | "" => ""
  | String a r => String (f a) (map f r)
  end.

Definition upper : string → string := map upper_char.
Definition lower : string → string := map lower_char.
Definition capitalize (s : string) : string :=
  match s with
  | "" => ""
  | String a r => String (upper_char a) (lower r)
  end.

(** Decimal digits: the class [\d] and [int(digits)] *)
Definition is_digit (a : ascii) : bool :=
  let n := nat_of_ascii a in bool_decide (48 ≤ n ≤ 57).

Fixpoint span (p : ascii → bool) (s : string) : string * string :=
  match s with
  | "" => ("", "")
  | String a r =>
      if p a then let '(u, v) := span p r in (String a u, v) else ("", s)
  end.

Fixpoint int_acc (acc : N) (s : string) : N :=
  match s with
  | "" => acc
  | String a r => int_acc (acc * 10 + N.of_nat (nat_of_ascii a - 48)) r
  end.

Definition int : string → N := int_acc 0.

(** [s == t] *)
Definition eqb (s t : string) : bool := bool_decide (s = t).

End Str.

(** ** Floating point, as an interface

    [float_of_str s] is [float(s)], which raises [ValueError] on text that is
    not a number; [threshold_str n] is [str(n * 0.01)] for an [int] [n], which
    raises [OverflowError] when [n] is too large for a float. *)

Class PyFloat : Type := {
  float : Type;
  float_of_str : string → result float;
  threshold_str : N → result string;
}.

(** An instance to run examples with: numbers kept as exact decimals
    [mantissa / 10^scale], written without trailing zeros. *)
Module Decimal.

Definition t : Type := (bool * N * nat)%type.

Fixpoint all_digits (s : string) : bool :=
  match s with
  | "" => true
  | String a r => Str.is_digit a && all_digits r
  end.

Definition unsigned (s : string) : result (N * nat) :=
  let '(ip, rest) := Str.span Str.is_digit s in
  match rest with
  | "" => if Str.eqb ip "" then Raise ValueError else Ok (Str.int ip, 0)
  | String "."%char fp =>
      if all_digits fp && negb (Str.eqb (ip +:+ fp) "")
      then Ok (Str.int (ip +:+ fp), String.length fp)
      else Raise ValueError
  | _ => Raise ValueError
  end.

Definition of_str (s : string) : result t :=
  match Str.strip s with
  | String "-"%char r => '(m, k) ← unsigned r; Ok (true, m, k)
  | String "+"%char r => '(m, k) ← unsigned r; Ok (false, m, k)
  | r => '(m, k) ← unsigned r; Ok (false, m, k)
  end.

Definition digit_char (d : N) : ascii := ascii_of_nat (48 + N.to_nat d).

Fixpoint digits_fuel (fuel : nat) (n : N) (acc : string) : string :=
  match fuel with
  | 0 => acc
  | S f =>
      let acc' := String (digit_char (n mod 10)) acc in
      if (n / 10 =? 0)%N then acc' else digits_fuel f (n / 10)%N acc'
  end.

Definition digits (n : N) : string := digits_fuel (S (N.to_nat (N.log2 n))) n "".

(** [n / 100] in decimal: ["0.5"] for 50, ["1.0"] for 100, ["0.07"] for 7 *)
Definition hundredth (n : N) : string :=
  let frac := (n mod 100)%N in
  let fs :=
    if (frac =? 0)%N then "0"
    else if (frac mod 10 =? 0)%N then String (digit_char (frac / 10)) ""
    else String (digit_char (frac / 10)) (String (digit_char (frac mod 10)) "") in
  digits (n / 100) +:+ "." +:+ fs.

Definition instance : PyFloat := {|
  float := t;
  float_of_str := of_str;
  threshold_str := λ n, Ok (hundredth n);
|}.

End Decimal.

(** ** collate_metrics *)

Definition all_metrics : list string :=
  [ "acc"; "ap"; "ar"; "pck"; "auc"; "3dpck"; "p-3dpck"; "3dauc";
    "p-3dauc"; "epe"; "nme"; "mpjpe"; "p-mpjpe"; "n-mpjpe"; "mean"; "head";
    "sho"; "elb"; "wri"; "hip"; "knee"; "ank"; "total" ].

Definition non_metric_columns : list string :=
  [ "Arch"; "Input Size"; "ckpt"; "log" ].

(** [metric.upper() in key or metric.capitalize() in key] *)
Definition matches (metric key : string) : bool :=
  Str.contains (Str.upper metric) key || Str.contains (Str.capitalize metric) key.

(** The [for metric in all_metrics] loop up to its [break]: the first
    vocabulary term that matches. *)
Definition first_match (key : string) : option string :=
  List.find (λ metric, matches metric key) all_metrics.

(** The [while i < len(key)] loop.  [skipping] tells that the cursor is
    inside the inner loop [while key[i] != '>'], which runs off the end of
    the string when no ['>'] follows. *)
Fixpoint rewrite_key (skipping : bool) (key : string) : result string :=
  match key with
  | "" => if skipping then Raise IndexError else Ok ""
  | String c r =>
      if skipping then
        if Ascii.eqb c ">" then rewrite_key false r else rewrite_key true r
      else if Ascii.eqb c "<" then rewrite_key true r
      else if Ascii.eqb c "*" || Ascii.eqb c "_" then String " " <$> rewrite_key false r
      else String c <$> rewrite_key false r
  end.

Section Collate.
Context `{PyFloat}.

(** [re.search(r'\d+', used_metric)] and the substitution of its span *)
Definition at_threshold (used_metric : string) : result string :=
  let '(before_digits, rest) := Str.span (λ a, negb (Str.is_digit a)) used_metric in
  let '(digits, after_digits) := Str.span Str.is_digit rest in
  if Str.eqb digits "" then Ok used_metric
  else
    value ← threshold_str (Str.int digits);
    Ok (before_digits +:+ "@" +:+ value +:+ after_digits).

(** The body of [if metric.upper() in key or ...] down to the name that is
    appended.  The value of [re.sub(' +', ' ', used_metric)] is dropped by
    the source, so the call leaves [used_metric] as it is. *)
Definition used_metric_of (metric key : string) : result string :=
  rewritten ← rewrite_key false key;
  let used_metric := Str.strip rewritten in
  if bool_decide (metric ∈ ["ap"; "ar"]) then at_threshold used_metric
  else Ok used_metric.

(** One turn of [for idx, key in enumerate(keys)]: the name this header
    contributes, if any. *)
Definition metric_of_key (key : string) : result (option string) :=
  if bool_decide (key ∈ non_metric_columns) then Ok None
  else match first_match key with
       | Some metric => Some <$> used_metric_of metric key
       | None => Ok None
       end.

Fixpoint collate_from (idx : nat) (keys : list string)
    (used_metrics : list string) (metric_idx : list nat)
    : result (list string * list nat) :=
  match keys with
  | [] => Ok (used_metrics, metric_idx)
  | key :: keys' =>
      contributed ← metric_of_key key;
      match contributed with
      | Some used_metric =>
          collate_from (S idx) keys' (used_metrics ++ [used_metric]) (metric_idx ++ [idx])
      | None => collate_from (S idx) keys' used_metrics metric_idx
      end
  end.

Definition collate_metrics (keys : list string) : result (list string * list nat) :=
  collate_from 0 keys [] [].

End Collate.

(** ** The records that are dumped *)

Section Records.
Context `{PyFloat}.

(** [collection]: [Name], [Metadata/Architecture], [README], [Paper] *)
Record collection : Type := {
  coll_Name : string;
  coll_Architecture : list string;
  coll_README : string;
  coll_Paper : list string;
}.

(** The [metadata] dict of a model: ['Training Data'], and ['FLOPs'] and
    ['Parameters'] when the table has the column *)
Record model_metadata : Type := {
  meta_TrainingData : string;
  meta_FLOPs : option float;
  meta_Parameters : option float;
}.

(** The single entry of ['Results'] *)
Record model_result : Type := {
  res_Task : string;
  res_Dataset : string;
  res_Metrics : list (string * float);
}.

Record model : Type := {
  model_Name : string;
  model_InCollection : string;
  model_Config : string;
  model_Metadata : model_metadata;
  model_Results : list model_result;
  model_Weights : string;
}.

(** What the tool hands to [mmcv.dump]: the content of a [.yml] descriptor,
    [{'Collections': [collection], 'Models': models}], or of the index,
    [{'Import': [...]}]. *)
Inductive yaml_obj : Type :=
  | ModelFile (c : collection) (models : list model)
  | ModelIndex (imports : list string).

End Records.

(** ** parse_md: the scan of the lines of a document *)

(** [d[k] = v] on a dict kept in insertion order *)
Fixpoint dict_set {V : Type} (k : string) (v : V) (d : list (string * V)) : list (string * V) :=
  match d with
  | [] => [(k, v)]
  | (k', v') :: d' =>
      if Str.eqb k k' then (k, v) :: d' else (k', v') :: dict_set k v d'
  end.

(** [l.index(x)] without its [ValueError] *)
Fixpoint index_of (x : string) (l : list string) : option nat :=
  match l with
  | [] => None
  | y :: l' => if Str.eqb y x then Some 0 else S <$> index_of x l'
  end.

(** [l[1:-1]] *)
Definition middle {A : Type} (l : list A) : list A := removelast (tail l).

Definition LF : ascii := ascii_of_nat 10.
Definition CR : ascii := ascii_of_nat 13.
Definition dquote : string := String (ascii_of_nat 34) "".

(** The literal pieces of the anchor pattern: an opening [<a href=] with a
    double quote, a group of any characters, a double quote with [>], a
    second group, and the closing tag *)
Definition anchor_open : string := "<a href=" +:+ dquote.
Definition anchor_mid : string := dquote +:+ ">".
Definition anchor_close : string := "</a>".

(** The leftmost match of the pattern inside a text without line feed: the
    match starts at the first [anchor_open]; the first group is greedy, so it
    ends at the last [anchor_mid] that still leaves an [anchor_close] behind
    it, and the second group ends at the last [anchor_close]. *)
Definition anchor_in (w : string) : option (string * string) :=
  p ← Str.find anchor_open w;
  let rest := Str.drop (p + String.length anchor_open) w in
  e2 ← Str.rfind anchor_close rest;
  e1 ← Str.rfind anchor_mid (Str.take e2 rest);
  Some (Str.take e1 rest, Str.slice (e1 + String.length anchor_mid) e2 rest).

Fixpoint first_anchor (segments : list string) : option (string * string) :=
  match segments with
  | [] => None
  | w :: ws =>
      match anchor_in w with
      | Some groups => Some groups
      | None => first_anchor ws
      end
  end.

(** [re.findall(pattern, s)[0]]: [.] matches every character but the line
    feed, so a match lies within one of the pieces between line feeds. *)
Definition find_anchor (s : string) : result (string * string) :=
  or_raise IndexError (first_anchor (Str.split LF s)).

(** [s[0]] *)
Definition first_char (s : string) : result ascii :=
  match s with
  | "" => Raise IndexError
  | String c _ => Ok c
  end.

(** The text between the first [](] of a cell and the next [)]:
    [left = cell.index('](') + 2; right = cell.index(')', left);
     cell[left:right]] *)
Definition link_target (cell : string) : result string :=
  k ← Str.index_from "](" cell 0;
  let left := k + 2 in
  right ← Str.index_from ")" cell left;
  Ok (Str.slice left right cell).

(** [osp.splitext(p)[0]]: the last dot of the last component starts the
    extension, unless only dots precede it in that component. *)
Fixpoint all_dots (s : string) : bool :=
  match s with
  | "" => true
  | String c r => Ascii.eqb c "." && all_dots r
  end.

Definition splitext_root (p : string) : string :=
  let sep_index := Str.rfind "/" p in
  let filename_index := from_option S 0 sep_index in
  match Str.rfind "." p with
  | Some dot_index =>
      if bool_decide (filename_index ≤ dot_index)
         && negb (all_dots (Str.slice filename_index dot_index p))
      then Str.take dot_index p
      else p
  | None => p
  end.

(** [osp.splitext(config)[0].replace('configs/', '', 1).replace('/', '--')] *)
Definition model_name_of (config : string) : string :=
  Str.replace_char "/" "--" (Str.replace_first "configs/" "" (splitext_root config)).

Section Parse.
Context `{PyFloat}.

(** The local variables of [parse_md] that the loop changes.  [dataset] is
    not bound until a DATASET block assigns it: [None] is the unbound
    variable. *)
Record locals : Type := {
  loc_Architecture : list string;
  loc_Paper : list string;
  loc_dataset : option string;
  loc_models : list model;
}.

Definition init_locals : locals :=
  {| loc_Architecture := []; loc_Paper := []; loc_dataset := None; loc_models := [] |}.

(** What is read off the header row of a table *)
Record table_header : Type := {
  config_idx : nat;
  ckpt_idx : nat;
  flops_idx : option nat;
  params_idx : option nat;
  metric_name_list : list string;
  metric_idx_list : list nat;
}.

(** *** The reference branch: [if lines[i][:2] == '<!'] *)
Definition annotation (lines : list string) (i : nat) (st : locals) : result locals :=
  line ← or_raise IndexError (lines !! i);
  anchor_line ← or_raise IndexError (lines !! (i + 3));
  '(url, name) ← find_anchor anchor_line;
  let name := Str.strip (Str.before "(" name) in
  let architecture :=
    if Str.contains "ALGORITHM" line || Str.contains "BACKBONE" line
    then loc_Architecture st ++ [name] else loc_Architecture st in
  let dataset :=
    if Str.contains "ALGORITHM" line || Str.contains "BACKBONE" line
    then loc_dataset st
    else if Str.contains "DATASET" line then Some name else loc_dataset st in
  Ok {| loc_Architecture := architecture;
        loc_Paper := loc_Paper st ++ [url];
        loc_dataset := dataset;
        loc_models := loc_models st |}.

(** *** The table branch: the header row *)
Definition parse_header (line : string) : result table_header :=
  let cols := middle (Str.strip <$> Str.split "|" line) in
  config ← or_raise ValueError (index_of "Arch" cols);
  ckpt ← or_raise ValueError (index_of "ckpt" cols);
  '(names, idxs) ← collate_metrics cols;
  Ok {| config_idx := config; ckpt_idx := ckpt;
        flops_idx := index_of "FLOPs" cols;
        params_idx := index_of "Params" cols;
        metric_name_list := names; metric_idx_list := idxs |}.

(** [float(line[idx])] *)
Definition float_cell (line : list string) (idx : nat) : result float :=
  cell ← or_raise IndexError (line !! idx);
  float_of_str cell.

Definition optional_float_cell (line : list string) (idx : option nat) : result (option float) :=
  match idx with
  | Some k => Some <$> float_cell line k
  | None => Ok None
  end.

(** [for metric_name, metric_idx in zip(...): metrics[metric_name] = float(...)] *)
Fixpoint collect_metrics (line : list string) (pairs : list (string * nat))
    (metrics : list (string * float)) : result (list (string * float)) :=
  match pairs with
  | [] => Ok metrics
  | (metric_name, metric_idx) :: pairs' =>
      value ← float_cell line metric_idx;
      collect_metrics line pairs' (dict_set metric_name value metrics)
  end.

(** *** The table branch: one data row.  [None] is the [continue] of a row
    whose Arch cell holds no link. *)
Definition parse_row (hdr : table_header) (collection_name task : string)
    (dataset : option string) (row : string) : result (option model) :=
  let line := middle (Str.split "|" row) in
  config_cell ← or_raise IndexError (line !! config_idx hdr);
  if negb (Str.contains "](" config_cell) then Ok None
  else
    target ← link_target config_cell;
    let config := Str.strip_chars "./" target in
    ckpt_cell ← or_raise IndexError (line !! ckpt_idx hdr);
    ckpt ← link_target ckpt_cell;
    let model_name := model_name_of config in
    training_data ← or_raise UnboundLocalError dataset;
    flops ← optional_float_cell line (flops_idx hdr);
    params ← optional_float_cell line (params_idx hdr);
    metrics ← collect_metrics line (zip (metric_name_list hdr) (metric_idx_list hdr)) [];
    Ok (Some {|
      model_Name := model_name;
      model_InCollection := collection_name;
      model_Config := config;
      model_Metadata := {| meta_TrainingData := training_data;
                           meta_FLOPs := flops; meta_Parameters := params |};
      model_Results := [ {| res_Task := task; res_Dataset := training_data;
                            res_Metrics := metrics |} ];
      model_Weights := ckpt |}).

Definition add_model (st : locals) (m : model) : locals :=
  {| loc_Architecture := loc_Architecture st; loc_Paper := loc_Paper st;
     loc_dataset := loc_dataset st; loc_models := loc_models st ++ [m] |}.

(** *** The table branch: [while j < len(lines) and lines[j][0] == '|'].
    [rows] is [lines[j:]]; the result carries the [j] the loop stops at. *)
Fixpoint table_rows (hdr : table_header) (collection_name task : string)
    (rows : list string) (j : nat) (st : locals) : result (nat * locals) :=
  match rows with
  | [] => Ok (j, st)
  | row :: rows' =>
      c ← first_char row;
      if Ascii.eqb c "|" then
        parsed ← parse_row hdr collection_name task (loc_dataset st) row;
        match parsed with
        | Some m => table_rows hdr collection_name task rows' (S j) (add_model st m)
        | None => table_rows hdr collection_name task rows' (S j) st
        end
      else Ok (j, st)
  end.

(** [i + 1 < len(lines) and lines[i + 1][:3] == '| :'] *)
Definition separator_follows (lines : list string) (i : nat) : bool :=
  match lines !! (i + 1) with
  | Some next => Str.eqb (Str.take 3 next) "| :"
  | None => false
  end.

(** *** One turn of [while i < len(lines)]: the next [i] and the locals *)
Definition step (collection_name task : string) (lines : list string)
    (i : nat) (st : locals) : result (nat * locals) :=
  line ← or_raise IndexError (lines !! i);
  if Str.eqb (Str.take 2 line) "<!" then
    st' ← annotation lines i st;
    Ok (i + 4, st')
  else
    c ← first_char line;
    if Ascii.eqb c "|" && separator_follows lines i then
      hdr ← parse_header line;
      table_rows hdr collection_name task (drop (i + 2) lines) (i + 2) st
    else Ok (i + 1, st).

(** The loop.  Every turn moves [i] forward, so [fuel] greater than the
    number of lines is never used up ([scan_fuel] below). *)
Fixpoint scan (fuel : nat) (collection_name task : string) (lines : list string)
    (i : nat) (st : locals) : option (result locals) :=
  match fuel with
  | 0 => None
  | S fuel' =>
      if decide (i < length lines) then
        match step collection_name task lines i st with
        | Ok (i', st') => scan fuel' collection_name task lines i' st'
        | Raise e => Some (Raise e)
        end
      else Some (Ok st)
  end.

Definition parse_lines (collection_name task : string) (lines : list string)
    : result locals :=
  default (Raise IndexError)
    (scan (S (length lines)) collection_name task lines 0 init_locals).

End Parse.

(** ** Files and paths *)

(** Text mode, as [open(file, 'r')] reads it: every line ending, [CR LF] or a
    lone [CR], comes back as one [LF]. *)
Fixpoint universal_newlines (s : string) : string :=
  match s with
  | "" => ""
  | String c r =>
      if Ascii.eqb c CR then
        match r with
        | String c' r' =>
            if Ascii.eqb c' LF then String LF (universal_newlines r')
            else String LF (universal_newlines r)
        | "" => String LF ""
        end
      else String c (universal_newlines r)
  end.

(** [f.readlines()] on text whose line endings were translated *)
Fixpoint readlines (s : string) : list string :=
  match s with
  | "" => []
  | String c r =>
      if Ascii.eqb c LF then String LF "" :: readlines r
      else match readlines r with
           | [] => [String c ""]
           | l :: ls => String c l :: ls
           end
  end.

(** [f.readline()] on a file just opened *)
Definition readline (s : string) : string := default "" (head (readlines s)).

(** [osp.basename(p)] *)
Definition basename (p : string) : string :=
  match Str.rfind "/" p with
  | Some k => Str.drop (S k) p
  | None => p
  end.

(** [osp.join(a, b)] for a relative [b] *)
Definition path_join (a b : string) : string :=
  if Str.eqb a "" || Str.eqb (Str.drop (String.length a - 1) a) "/" then a +:+ b
  else a +:+ "/" +:+ b.

(** [p.rsplit('/', 3)[0]] *)
Definition rsplit3_head (p : string) : string :=
  let parts := Str.split "/" p in
  String.concat "/" (take (Nat.max 1 (length parts - 3)) parts).

(** [md_file[:-2] + 'yml'] *)
Definition yml_file_of (md_file : string) : string :=
  Str.take (String.length md_file - 2) md_file +:+ "yml".

(** The world of a run: the files, and the history of the writes made so
    far.  The history is not a variable of the tool; it records, for each
    write, the path, the content the path had before (if it existed) and the
    content written, so that properties of a run can speak of its writes. *)
Record write_event : Type := {
  we_path : string;
  we_before : option string;
  we_after : string;
}.

Record world : Type := {
  files : gmap string string;
  history : list write_event;
}.

(** A computation that reads and writes files and may raise.  The world an
    exception leaves behind is the world at the point it was raised. *)
Definition io (A : Type) : Type := world → result A * world.

Global Instance io_ret : MRet io := λ A a w, (Ok a, w).
Global Instance io_bind : MBind io := λ A B k m w,
  match m w with
  | (Ok a, w') => k a w'
  | (Raise e, w') => (Raise e, w')
  end.

Definition lift {A : Type} (r : result A) : io A := λ w, (r, w).

(** [osp.isfile(p)] *)
Definition isfile (p : string) : io bool :=
  λ w, (Ok (bool_decide (is_Some (files w !! p))), w).

(** [open(p, 'r').read()] in a world whose files are readable text.  A path
    that is no file fails, and the model raises [FileNotFoundError] for it;
    the other errors of [open] (a path that runs through a file, bytes that
    do not decode) are outside this world. *)
Definition read_text (p : string) : io string :=
  λ w, (universal_newlines <$> or_raise FileNotFoundError (files w !! p), w).

(** [open(p, 'w')] and the writing of [text], with line feeds written as
    they are, in a world where every path can be written: a write that
    fails (a missing directory, a path that cannot be written) is outside
    this world. *)
Definition write_text (p text : string) : io unit :=
  λ w, (Ok (),
        {| files := <[p := text]> (files w);
           history := history w ++
             [{| we_path := p; we_before := files w !! p; we_after := text |}] |}).

(** ** The tool *)

Section Tool.
Context `{PyFloat}.

(** [MMPOSE_ROOT], and what the tool asks of libraries that look at the
    file system or lie outside the repository:
    [relpath p] is [osp.relpath(p, MMPOSE_ROOT)] for a non-empty [p];
    [glob_yml paths] is [glob.glob(osp.join(configs_dir, '**', '*.yml'),
    recursive=True)] when [paths] are the files that exist;
    [dump obj] is the text [mmcv.dump(obj, f, file_format='yaml',
    sort_keys=False)] writes. *)
Variable MMPOSE_ROOT : string.
Variable relpath : string → string.
Variable glob_yml : gset string → list string.
Variable dump : yaml_obj → string.

(** [osp.relpath] refuses the empty path. *)
Definition osp_relpath (p : string) : result string :=
  if Str.eqb p "" then Raise ValueError else Ok (relpath p).

Definition dump_yaml_and_check_difference (obj : yaml_obj) (file : string) : io bool :=
  present ← isfile file;
  original ← (if present : bool then text ← read_text file; mret (Some text)
              else mret None);
  _ ← write_text file (dump obj);
  match original with
  | Some original =>
      new ← read_text file;
      mret (negb (Str.eqb original new))
  | None => mret true
  end.

Definition get_task_name (md_file : string) : io string :=
  rel ← lift (osp_relpath md_file);
  let task_dir := rsplit3_head rel in
  let readme_file := path_join task_dir "README.md" in
  text ← read_text readme_file;
  mret (Str.strip (Str.drop 2 (readline text))).

Definition parse_md (md_file : string) : io bool :=
  let collection_name := splitext_root (basename md_file) in
  readme ← lift (osp_relpath md_file);
  task ← get_task_name md_file;
  text ← read_text md_file;
  let lines := readlines text in
  st ← lift (parse_lines collection_name task lines);
  let collection :=
    {| coll_Name := collection_name;
       coll_Architecture := loc_Architecture st;
       coll_README := readme;
       coll_Paper := loc_Paper st |} in
  let result := ModelFile collection (loc_models st) in
  dump_yaml_and_check_difference result (yml_file_of md_file).

Definition model_index_file : string := path_join MMPOSE_ROOT "model-index.yml".

Definition update_model_index : io bool :=
  yml_files ← (λ w, (Ok (glob_yml (dom (files w))), w));
  let yml_files := merge_sort String.le yml_files in
  imports ← lift (mapM osp_relpath yml_files);
  dump_yaml_and_check_difference (ModelIndex imports) model_index_file.

(** [for fn in file_list: file_modified |= parse_md(fn)] *)
Fixpoint parse_all (file_list : list string) (file_modified : bool) : io bool :=
  match file_list with
  | [] => mret file_modified
  | fn :: file_list' =>
      changed ← parse_md fn;
      parse_all file_list' (file_modified || changed)
  end.

(** [[fn for fn in sys.argv[1:] if osp.basename(fn) != 'README.md']] *)
Definition file_list_of (args : list string) : list string :=
  filter (λ fn, basename fn ≠ "README.md") args.

(** The script: [args] is [sys.argv[1:]], the value is the argument of
    [exit]. *)
Definition main (args : list string) : io Z :=
  let file_list := file_list_of args in
  match file_list with
  | [] => mret 0%Z
  | _ =>
      file_modified ← parse_all file_list false;
      index_changed ← update_model_index;
      mret (if file_modified || index_changed then 1%Z else 0%Z)
  end.

End Tool.

(** The exit status of the process: the argument of [exit], or 1 when an
    exception ends the run. *)
Definition exit_status (r : result Z) : Z :=
  match r with
  | Ok n => n
  | Raise _ => 1%Z
  end.

(** ** A sample environment

    A concrete choice for the parameters of the tool, to run it on examples:
    the project root is the working directory and paths are given relative
    to it, so that [relpath] changes nothing; [glob_yml] keeps the paths
    under [configs/] that end in [.yml]; [dump] writes block-style YAML. *)
Module Sample.

#[export] Existing Instance Decimal.instance.

Definition root : string := "".
Definition relpath (p : string) : string := p.

Definition is_yml_under_configs (p : string) : bool :=
  Str.starts_with "configs/" p
  && Str.eqb (Str.drop (String.length p - 4) p) ".yml".

Definition glob_yml (paths : gset string) : list string :=
  filter (λ p, is_yml_under_configs p = true) (elements paths).

Definition nl : string := String LF "".

Definition float_str (x : Decimal.t) : string :=
  let '(neg, m, k) := x in
  let ds := Decimal.digits m in
  let ds := String.concat "" (replicate (S k - String.length ds) "0") +:+ ds in
  let n := String.length ds - k in
  (if neg : bool then "-" else "") +:+ Str.take n ds +:+ "."
  +:+ (if decide (k = 0) then "0" else Str.drop n ds).

Definition entry (indent key value : string) : string :=
  indent +:+ key +:+ ": " +:+ value +:+ nl.

Definition str_list (indent key : string) (l : list string) : string :=
  match l with
  | [] => entry indent key "[]"
  | _ => indent +:+ key +:+ ":" +:+ nl
         +:+ String.concat "" ((λ x, indent +:+ "- " +:+ x +:+ nl) <$> l)
  end.

Definition optional_float (indent key : string) (x : option Decimal.t) : string :=
  match x with
  | Some x => entry indent key (float_str x)
  | None => ""
  end.

Definition dump_result (r : model_result) : string :=
  entry "  - " "Task" (res_Task r)
  +:+ entry "    " "Dataset" (res_Dataset r)
  +:+ match res_Metrics r with
      | [] => entry "    " "Metrics" "{}"
      | ms => "    Metrics:" +:+ nl
              +:+ String.concat "" ((λ kv, entry "      " kv.1 (float_str kv.2)) <$> ms)
      end.

Definition dump_model (m : model) : string :=
  entry "- " "Name" (model_Name m)
  +:+ entry "  " "In Collection" (model_InCollection m)
  +:+ entry "  " "Config" (model_Config m)
  +:+ "  Metadata:" +:+ nl
  +:+ entry "    " "Training Data" (meta_TrainingData (model_Metadata m))
  +:+ optional_float "    " "FLOPs" (meta_FLOPs (model_Metadata m))
  +:+ optional_float "    " "Parameters" (meta_Parameters (model_Metadata m))
  +:+ "  Results:" +:+ nl
  +:+ String.concat "" (dump_result <$> model_Results m)
  +:+ entry "  " "Weights" (model_Weights m).

Definition dump (obj : yaml_obj) : string :=
  match obj with
  | ModelFile c models =>
      "Collections:" +:+ nl
      +:+ entry "- " "Name" (coll_Name c)
      +:+ "  Metadata:" +:+ nl
      +:+ str_list "    " "Architecture" (coll_Architecture c)
      +:+ entry "  " "README" (coll_README c)
      +:+ str_list "  " "Paper" (coll_Paper c)
      +:+ match models with
          | [] => entry "" "Models" "[]"
          | _ => "Models:" +:+ nl +:+ String.concat "" (dump_model <$> models)
          end
  | ModelIndex imports => str_list "" "Import" imports
  end.

Definition parse_md : string → io bool := parse_md relpath dump.
Definition parse_all : list string → bool → io bool := parse_all relpath dump.
Definition update_model_index : io bool := update_model_index root relpath glob_yml dump.
Definition main : list string → io Z := main root relpath glob_yml dump.

(** Lines joined into a file *)
Definition text (lines : list string) : string :=
  String.concat "" ((λ l, l +:+ nl) <$> lines).

Definition anchor (url name : string) : string :=
  "<summary><a href=" +:+ dquote +:+ url +:+ dquote +:+ ">" +:+ name +:+ "</a></summary>".

(** A document with an algorithm block, a data set block and a table of two
    rows, the first of which has no link *)
Definition hrnet_md : string := text [
  "<!-- [ALGORITHM] -->";
  "";
  "<details>";
  anchor "http://paper/hrnet" "HRNet (CVPR'2019)";
  "<!-- [DATASET] -->";
  "";
  "<details>";
  anchor "http://paper/coco" "COCO (ECCV'2014)";
  "";
  "| Arch | Input Size | AP | AP<sup>50</sup> | ckpt | log |";
  "| :--- | :--: | :--: | :--: | :--: | :--: |";
  "| pose_hrnet | 256x192 | 0.1 | 0.2 | - | - |";
  "| [pose_hrnet](/configs/body/2d_kpt/foo/bar.py) | 256x192 | 0.746 | 0.904 | [ckpt](http://w/bar.pth) | [log](http://w/bar.json) |";
  "" ].

Definition hrnet_path : string := "configs/body/2d_kpt/foo/coco/hrnet_coco.md".

Definition fs0 : gmap string string :=
  {[ "configs/body/2d_kpt/README.md" := text ["# 2D Body Keypoint"; ""; "text"];
     hrnet_path := hrnet_md ]}.

Definition w0 : world := {| files := fs0; history := [] |}.

(** Rows of the table of [hrnet_md], and its header as [parse_md] reads it *)
Definition coco_header : string :=
  "| Arch | Input Size | AP | AP<sup>50</sup> | ckpt | log |".
Definition coco_hdr : table_header :=
  {| config_idx := 0; ckpt_idx := 4; flops_idx := None; params_idx := None;
     metric_name_list := ["AP"; "AP@0.5"]; metric_idx_list := [2; 3] |}.
Definition unlinked_row : string := "| pose_hrnet | 256x192 | 0.1 | 0.2 | - | - |".
Definition linked_row : string :=
  "| [pose_hrnet](configs/body/2d_kpt/foo/bar.py) | 256x192 | 0.746 | 0.904 | [ckpt](http://w/bar.pth) | [log](http://w/bar.json) |".

(** The record [linked_row] gives under the data set COCO *)
Definition bar_model : model :=
  {| model_Name := "body--2d_kpt--foo--bar";
     model_InCollection := "hrnet_coco";
     model_Config := "configs/body/2d_kpt/foo/bar.py";
     model_Metadata := {| meta_TrainingData := "COCO"; meta_FLOPs := None;
                          meta_Parameters := None |};
     model_Results :=
       [ {| res_Task := "2D Body Keypoint"; res_Dataset := "COCO";
            res_Metrics := [("AP", (false, 746%N, 3)); ("AP@0.5", (false, 904%N, 3))] |} ];
     model_Weights := "http://w/bar.pth" |}.

Definition hrnet_lines : list string := readlines (universal_newlines hrnet_md).



Definition index_path : string := "model-index.yml".
Definition readme : string := "configs/body/2d_kpt/README.md".
Definition hrnet_yml : string := "configs/body/2d_kpt/foo/coco/hrnet_coco.yml".

(** A document whose reference block has no anchor on its fourth line *)
Definition broken_path : string := "configs/body/2d_kpt/foo/coco/broken.md".
Definition broken_md : string :=
  text [ "# Broken"; "<!-- [ALGORITHM] -->"; ""; "<details>"; "no anchor here" ].

Definition w_broken : world :=
  {| files := <[broken_path := broken_md]> fs0; history := [] |}.

(** Line feeds turned into the two characters CR LF *)
Definition crlf : string → string := Str.replace_char LF (String CR (String LF "")).

Definition index_text : string := dump (ModelIndex [hrnet_yml]).

(** The world a first run on the sample document leaves *)
Definition after_first_run : world := (main [hrnet_path] w0).2.

(** That world, with the index then saved with CR LF line ends *)
Definition w_crlf : world :=
  {| files := <[index_path := crlf index_text]> (files after_first_run);
     history := [] |}.

(** Two documents whose descriptors have the same path *)
Definition twin_a : string := "configs/t/a/b/x.md".
Definition twin_b : string := "configs/t/a/b/x.mx".
Definition twins : list string := [twin_a; twin_b].
Definition w_twins : world :=
  {| files := {[ "configs/t/README.md" := text ["# Task"];
                 twin_a := text ["one"]; twin_b := text ["two"] ]};
     history := [] |}.
Definition after_twins : world := (main twins w_twins).2.

(** The sample document and then the broken one, with a summary document
    between them that the tool leaves out *)
Definition two_documents : list string :=
  [hrnet_path; "configs/README.md"; broken_path].

End Sample.

(** * Properties

    ** The vocabulary of the statements *)

(** [sub] occurs in [s] *)
Definition occurs (sub s : string) : Prop := ∃ pre post, s = pre +:+ sub +:+ post.

(** [metric] occurs in [key] when letter case is ignored *)
Definition occurs_ci (metric key : string) : bool :=
  Str.contains (Str.lower metric) (Str.lower key).

(** [metric] is the first term of [vocabulary] that matches [key] *)
Definition first_matching (vocabulary : list string) (metric key : string) : Prop :=
  ∃ k, vocabulary !! k = Some metric
       ∧ matches metric key = true
       ∧ (∀ k' metric', k' < k → vocabulary !! k' = Some metric' →
            matches metric' key = false).

Fixpoint all_chars (p : ascii → bool) (s : string) : bool :=
  match s with
  | "" => true
  | String c r => p c && all_chars p r
  end.

(** The metric name, in the words of the specification.  [r] is [key]
    without its bracketed spans: each span runs from a [<] to the first [>]
    after it. *)
Inductive without_brackets : string → string → Prop :=
  | wb_plain (s : string) :
      Str.mem "<" s = false → without_brackets s s
  | wb_span (pre mid rest r : string) :
      Str.mem "<" pre = false →
      Str.mem ">" mid = false →
      without_brackets rest r →
      without_brackets (pre +:+ "<" +:+ mid +:+ ">" +:+ rest) (pre +:+ r).

(** Emphasis markers become spaces. *)
Definition emphasis_to_space : string → string :=
  Str.map (λ c, if Ascii.eqb c "*" || Ascii.eqb c "_" then " "%char else c).





(** A link target of the form [configs/<dirs...>/<file>.<ext>] *)
Definition config_target (dirs : list string) (file ext : string) : string :=
  "configs/" +:+ String.concat "/" (dirs ++ [file +:+ "." +:+ ext]).



Definition arch_unlinked (hdr : table_header) (row : string) : Prop :=
  ∃ cell,
    first_char row = Ok "|"%char
    ∧ middle (Str.split "|" row) !! config_idx hdr = Some cell
    ∧ Str.contains "](" cell = false.

(** The loop of [parse_md] gets from one state to another without an
    exception. *)
Inductive reaches `{PyFloat} (collection_name task : string) (lines : list string)
    : nat * locals → nat * locals → Prop :=
  | reaches_here (s : nat * locals) : reaches collection_name task lines s s
  | reaches_turn (i : nat) (st : locals) (i' : nat) (st' : locals) (s : nat * locals) :
      i < length lines →
      step collection_name task lines i st = Ok (i', st') →
      reaches collection_name task lines (i', st') s →
      reaches collection_name task lines (i, st) s.

(** A reference block whose fourth line is missing or holds no anchor *)
Definition malformed_block (lines : list string) (i : nat) : Prop :=
  ∃ line,
    lines !! i = Some line
    ∧ Str.eqb (Str.take 2 line) "<!" = true
    ∧ (lines !! (i + 3) = None
       ∨ ∃ anchor_line, lines !! (i + 3) = Some anchor_line
                        ∧ first_anchor (Str.split LF anchor_line) = None).

(** A table whose header row has no [Arch] or no [ckpt] cell *)
Definition table_missing_column (lines : list string) (i : nat) : Prop :=
  ∃ header,
    lines !! i = Some header
    ∧ first_char header = Ok "|"%char
    ∧ separator_follows lines i = true
    ∧ (index_of "Arch" (middle (Str.strip <$> Str.split "|" header)) = None
       ∨ index_of "ckpt" (middle (Str.strip <$> Str.split "|" header)) = None).

(** A write changed the text of its file: the file is new, or what a
    text-mode read returns is not what it returned before. *)
Definition text_changed (ev : write_event) : bool :=
  match we_before ev with
  | Some before =>
      negb (Str.eqb (universal_newlines before) (universal_newlines (we_after ev)))
  | None => true
  end.

(** A write that puts back the content the file had *)
Definition rewrites_same (ev : write_event) : Prop :=
  we_before ev = Some (we_after ev).

Definition written (w : world) (file text : string) : write_event :=
  {| we_path := file; we_before := files w !! file; we_after := text |}.

Definition after_write (w : world) (file text : string) : world :=
  {| files := <[file := text]> (files w);
     history := history w ++ [written w file text] |}.

Section RunVocabulary.
Context `{PyFloat}.
Variable MMPOSE_ROOT : string.
Variable relpath : string → string.

(** Where the summary document of a document lies *)
Definition readme_path (md_file : string) : string :=
  path_join (rsplit3_head (relpath md_file)) "README.md".

(** The object [parse_md] dumps, as a function of the files it reads *)
Definition parse_doc (md_file : string) (fs : gmap string string) : result yaml_obj :=
  let collection_name := splitext_root (basename md_file) in
  readme ← osp_relpath relpath md_file;
  readme_text ← or_raise FileNotFoundError (fs !! readme_path md_file);
  let task := Str.strip (Str.drop 2 (readline (universal_newlines readme_text))) in
  text ← or_raise FileNotFoundError (fs !! md_file);
  st ← parse_lines collection_name task (readlines (universal_newlines text));
  Ok (ModelFile
        {| coll_Name := collection_name;
           coll_Architecture := loc_Architecture st;
           coll_README := readme;
           coll_Paper := loc_Paper st |}
        (loc_models st)).

(** The files a run over [file_list] reads, and the files it writes *)
Definition inputs_of (file_list : list string) : list string :=
  file_list ++ (readme_path <$> file_list).

Definition outputs_of (file_list : list string) : list string :=
  (yml_file_of <$> file_list) ++ [model_index_file MMPOSE_ROOT].

End RunVocabulary.

(** *** The vocabulary of the further properties *)

(** A text whose first character, if it has one, fails [p]; and one whose
    last character does *)
Definition first_char_fails (p : ascii → bool) (s : string) : Prop :=
  ∀ c r, s = String c r → p c = false.

Definition last_char_fails (p : ascii → bool) (s : string) : Prop :=
  ∀ a c, s = a +:+ String c "" → p c = false.

(** The characters the rewriting of a header takes out *)
Definition markup (c : ascii) : bool :=
  Ascii.eqb c "<" || Ascii.eqb c "*" || Ascii.eqb c "_".

(** A record as the table branch builds it *)
Definition record_of_row `{PyFloat} (collection_name task : string) (m : model) : Prop :=
  model_InCollection m = collection_name
  ∧ model_Name m = model_name_of (model_Config m)
  ∧ (∃ metrics,
       model_Results m
       = [ {| res_Task := task;
              res_Dataset := meta_TrainingData (model_Metadata m);
              res_Metrics := metrics |} ])
  ∧ first_char_fails (λ a, Str.mem a "./") (model_Config m)
  ∧ last_char_fails (λ a, Str.mem a "./") (model_Config m).

(** A line as [readlines] returns it: not empty, and a line feed, if any,
    is its last character *)
Definition is_line (l : string) : Prop :=
  ∃ body, Str.mem LF body = false
          ∧ ((l = body +:+ String LF "") ∨ (l = body ∧ body ≠ "")).

(** A name as a reference block gives it: trimmed, and cut before the
    first opening parenthesis *)
Definition block_name (name : string) : Prop :=
  first_char_fails Str.is_space name
  ∧ last_char_fails Str.is_space name
  ∧ all_chars (λ a, negb (Ascii.eqb a "(")) name = true.

(** What the scan of the sample document returns, and the collection of
    its descriptor *)
Definition hrnet_locals : @locals Decimal.instance :=
  {| loc_Architecture := ["HRNet"];
     loc_Paper := ["http://paper/hrnet"; "http://paper/coco"];
     loc_dataset := Some "COCO";
     loc_models := [Sample.bar_model] |}.

Definition hrnet_collection : collection :=
  {| coll_Name := "hrnet_coco";
     coll_Architecture := ["HRNet"];
     coll_README := Sample.hrnet_path;
     coll_Paper := ["http://paper/hrnet"; "http://paper/coco"] |}.


(** ** Examples of the operations *)

Example split_row : Str.split "|" "| a |b|" = [""; " a "; "b"; ""].
Proof. reflexivity. Qed.
Example strip_ex : Str.strip "  AP 50 " = "AP 50".
Proof. reflexivity. Qed.
Example strip_chars_ex : Str.strip_chars "./" "./configs/a.py" = "configs/a.py".
Proof. reflexivity. Qed.
Example rfind_ex : Str.rfind "ab" "abcabc" = Some 3.
Proof. reflexivity. Qed.
Example capitalize_ex : Str.capitalize "p-3dpck" = "P-3dpck".
Proof. reflexivity. Qed.
Example hundredth_50 : Decimal.hundredth 50 = "0.5".
Proof. reflexivity. Qed.
Example hundredth_175 : Decimal.hundredth 175 = "1.75".
Proof. reflexivity. Qed.
Example of_str_ex : Decimal.of_str " 0.718 " = Ok (false, 718%N, 3).
Proof. reflexivity. Qed.
Example of_str_bad : Decimal.of_str "-" = Raise ValueError.
Proof. reflexivity. Qed.
Example splitext_ex1 : splitext_root "configs/a.b/c" = "configs/a.b/c".
Proof. reflexivity. Qed.
Example splitext_ex2 : splitext_root "a/.hidden" = "a/.hidden".
Proof. reflexivity. Qed.
Example splitext_ex3 : splitext_root "a/x.tar.gz" = "a/x.tar".
Proof. reflexivity. Qed.
Example model_name_ex :
  model_name_of "configs/body/2d_kpt/foo/bar.py" = "body--2d_kpt--foo--bar".
Proof. reflexivity. Qed.
Example readlines_ex :
  readlines (universal_newlines ("a" +:+ String CR (String LF "b")))
  = [String "a" (String LF ""); "b"].
Proof. reflexivity. Qed.
Example rsplit3_ex :
  rsplit3_head "configs/body/2d_kpt/alg/coco/x.md" = "configs/body/2d_kpt".
Proof. reflexivity. Qed.
Example rsplit3_short : rsplit3_head "a/x.md" = "a".
Proof. reflexivity. Qed.
Example yml_file_ex : yml_file_of "configs/a/x.md" = "configs/a/x.yml".
Proof. reflexivity. Qed.
Example basename_ex : basename "configs/a/README.md" = "README.md".
Proof. reflexivity. Qed.

Section CollateExamples.
Local Existing Instance Decimal.instance.

Example collate_coco :
  collate_metrics ["Arch"; "Input Size"; "AP"; "AP<sup>50</sup>"; "AR"; "ckpt"; "log"]
  = Ok (["AP"; "AP@0.5"; "AR"], [2; 3; 4]).
Proof. reflexivity. Qed.

Example collate_pck :
  collate_metrics ["Arch"; "Mean"; "Mean<sub>wri</sub>"; "PCKh@0.1"; "ckpt"]
  = Ok (["Mean"; "Meanwri"; "PCKh@0.1"], [1; 2; 3]).
Proof. reflexivity. Qed.

Example collate_AP_50 : collate_metrics ["AP 50"] = Ok (["AP @0.5"], [0]).
Proof. reflexivity. Qed.

Example collate_AP_tag_50 : collate_metrics ["AP@<tag>50"] = Ok (["AP@@0.5"], [0]).
Proof. reflexivity. Qed.

Example collate_lower : collate_metrics ["ap"] = Ok ([], []).
Proof. reflexivity. Qed.

Example collate_unclosed : collate_metrics ["AP<"] = Raise IndexError.
Proof. reflexivity. Qed.

Example collate_spaces : collate_metrics ["AP *50*  x"] = Ok (["AP  @0.5   x"], [0]).
Proof. reflexivity. Qed.
End CollateExamples.

#[local] Arguments String.append !_ _ : simpl nomatch.
#[local] Arguments Ascii.eqb : simpl never.

(** ** Facts about the string operations *)

Lemma str_app_nil_r (s : string) : s +:+ "" = s.
Proof. induction s as [|c s IH]; cbn; [done | by rewrite IH]. Qed.

Lemma str_app_assoc (a b c : string) : (a +:+ b) +:+ c = a +:+ b +:+ c.
Proof. induction a as [|x a IH]; cbn; [done | by rewrite IH]. Qed.

Lemma str_app_cons (c : ascii) (a b : string) : String c a +:+ b = String c (a +:+ b).
Proof. done. Qed.

Lemma str_app_length (a b : string) :
  String.length (a +:+ b) = String.length a + String.length b.
Proof. induction a as [|x a IH]; cbn; [done | by rewrite IH]. Qed.

Lemma starts_with_spec (sub s : string) :
  Str.starts_with sub s = true ↔ ∃ post, s = sub +:+ post.
Proof.
  revert s. induction sub as [|c sub IH]; intros s; cbn.
  - split; [by exists s | done].
  - destruct s as [|d s]; cbn.
    + split; [done | by intros [post ?]].
    + rewrite andb_true_iff, Ascii.eqb_eq, IH. split.
      * intros [-> [post ->]]. by exists post.
      * intros [post [= -> ->]]. eauto.
Qed.

Lemma find_occurs (sub s : string) (k : nat) :
  Str.find sub s = Some k →
  ∃ pre post, s = pre +:+ sub +:+ post ∧ String.length pre = k.
Proof.
  revert k. induction s as [|c s IH]; intros k; cbn.
  - destruct (Str.starts_with sub "") eqn:Hp; [|done].
    intros [= <-]. apply starts_with_spec in Hp as [post Hp]. by exists "", post.
  - destruct (Str.starts_with sub (String c s)) eqn:Hp.
    + intros [= <-]. apply starts_with_spec in Hp as [post Hp]. by exists "", post.
    + destruct (Str.find sub s) as [k'|] eqn:Hf; [|done].
      intros [= <-]. destruct (IH k' eq_refl) as (pre & post & -> & Hl).
      exists (String c pre), post. cbn. by rewrite Hl.
Qed.

Lemma occurs_find (sub pre post : string) :
  is_Some (Str.find sub (pre +:+ sub +:+ post)).
Proof.
  induction pre as [|c pre IH]; cbn.
  - assert (Str.starts_with sub (sub +:+ post) = true) as Hp
      by (apply starts_with_spec; eauto).
    destruct (sub +:+ post); cbn in *; rewrite Hp; eauto.
  - destruct (Str.starts_with sub _); [eauto|].
    destruct IH as [k ->]. cbn. eauto.
Qed.

Lemma contains_spec (sub s : string) : Str.contains sub s = true ↔ occurs sub s.
Proof.
  unfold Str.contains. rewrite bool_decide_eq_true. split.
  - intros [k Hk]. apply find_occurs in Hk as (pre & post & ? & _). by exists pre, post.
  - intros (pre & post & ->). apply occurs_find.
Qed.

Lemma str_map_app (f : ascii → ascii) (a b : string) :
  Str.map f (a +:+ b) = Str.map f a +:+ Str.map f b.
Proof. induction a as [|c a IH]; simpl; [done | by rewrite IH]. Qed.

Lemma occurs_map (f : ascii → ascii) (sub s : string) :
  occurs sub s → occurs (Str.map f sub) (Str.map f s).
Proof.
  intros (pre & post & ->). exists (Str.map f pre), (Str.map f post).
  by rewrite !str_map_app.
Qed.

Lemma lower_upper_char (c : ascii) :
  Str.lower_char (Str.upper_char c) = Str.lower_char c.
Proof. by destruct c as [[] [] [] [] [] [] [] []]. Qed.

Lemma lower_lower_char (c : ascii) :
  Str.lower_char (Str.lower_char c) = Str.lower_char c.
Proof. by destruct c as [[] [] [] [] [] [] [] []]. Qed.

Lemma lower_upper (s : string) : Str.lower (Str.upper s) = Str.lower s.
Proof.
  induction s as [|c s IH]; simpl; [done|].
  unfold Str.lower, Str.upper in *. simpl. by rewrite lower_upper_char, IH.
Qed.

Lemma lower_lower (s : string) : Str.lower (Str.lower s) = Str.lower s.
Proof.
  induction s as [|c s IH]; simpl; [done|].
  unfold Str.lower in *. simpl. by rewrite lower_lower_char, IH.
Qed.

Lemma lower_capitalize (s : string) : Str.lower (Str.capitalize s) = Str.lower s.
Proof.
  destruct s as [|c s]; [done|]. unfold Str.capitalize.
  change (Str.lower (String ?a ?r)) with (String (Str.lower_char a) (Str.lower r)).
  by rewrite lower_upper_char, lower_lower.
Qed.

(** Claim C3, as amended.  For every header and every vocabulary term, the
    membership test of the metric-name normalizer succeeds exactly when the
    header contains, letter for letter, the upper-case form of the term or
    its capitalized form.  When the test succeeds the term occurs in the
    header with case ignored; a header in another mix of cases does not
    match. *)
Theorem matches_spec (metric key : string) :
  (matches metric key = true
   ↔ occurs (Str.upper metric) key ∨ occurs (Str.capitalize metric) key)
  ∧ (matches metric key = true → occurs_ci metric key = true).
Proof.
  assert (matches metric key = true
   ↔ occurs (Str.upper metric) key ∨ occurs (Str.capitalize metric) key) as Hiff.
  { unfold matches. by rewrite orb_true_iff, !contains_spec. }
  split; [done|]. rewrite Hiff. unfold occurs_ci. rewrite contains_spec.
  intros [Ho|Ho]; apply (occurs_map Str.lower_char) in Ho.
  - fold (Str.lower (Str.upper metric)) in Ho. by rewrite lower_upper in Ho.
  - fold (Str.lower (Str.capitalize metric)) in Ho. by rewrite lower_capitalize in Ho.
Qed.

(** Claim C3 as stated fails: the header [ap] holds the term [ap] when case
    is ignored, the test fails on it and the header gives no metric. *)
Lemma matches_lower_case :
  occurs_ci "ap" "ap" = true
  ∧ matches "ap" "ap" = false
  ∧ @collate_metrics Decimal.instance ["ap"] = Ok ([], []).
Proof. by vm_compute. Qed.

Lemma find_first_matching (vocabulary : list string) (metric key : string) :
  List.find (λ m, matches m key) vocabulary = Some metric →
  first_matching vocabulary metric key.
Proof.
  induction vocabulary as [|m v IH]; simpl; [done|].
  destruct (matches m key) eqn:Hm.
  - intros [= ->]. exists 0. split_and!; [done..|]. intros; lia.
  - intros Hf. destruct (IH Hf) as (k & Hk & Hmk & Hearlier).
    exists (S k). split_and!; [done..|].
    intros [|k'] m' Hlt; simpl; [by intros [= <-]|].
    apply Hearlier. lia.
Qed.

Section CollateFacts.
Context `{PyFloat}.

Lemma metric_of_key_Some (key name : string) :
  metric_of_key key = Ok (Some name) →
  (key ∉ non_metric_columns)
  ∧ ∃ metric, first_matching all_metrics metric key
              ∧ used_metric_of metric key = Ok name.
Proof.
  unfold metric_of_key. case_bool_decide as Hk; [done|].
  destruct (first_match key) as [metric|] eqn:Hf; [|done].
  destruct (used_metric_of metric key) as [u|] eqn:Hu; [|done].
  intros [= <-]. split; [done|]. exists metric. split; [|done].
  by apply find_first_matching.
Qed.

Lemma metric_of_key_None (key : string) :
  metric_of_key key = Ok None →
  key ∈ non_metric_columns ∨ first_match key = None.
Proof.
  unfold metric_of_key. case_bool_decide as Hk; [by left|].
  destruct (first_match key) as [metric|]; [|by right].
  by destruct (used_metric_of metric key).
Qed.

Lemma collate_from_spec (keys : list string) : ∀ idx used_metrics metric_idx,
  Forall (λ key, is_ok (metric_of_key key) = true) keys →
  ∃ names idxs,
    collate_from idx keys used_metrics metric_idx
      = Ok (used_metrics ++ names, metric_idx ++ idxs)
    ∧ length names = length idxs
    ∧ StronglySorted lt idxs
    ∧ Forall (λ i, idx ≤ i) idxs
    ∧ (∀ k i, idxs !! k = Some i →
         ∃ key name, keys !! (i - idx) = Some key ∧ names !! k = Some name
                     ∧ metric_of_key key = Ok (Some name))
    ∧ (∀ n key name, keys !! n = Some key →
         metric_of_key key = Ok (Some name) → (idx + n ∈ idxs)).
Proof.
  induction keys as [|key keys IH]; intros idx un mi Hok.
  - exists [], []. simpl. rewrite !app_nil_r.
    split_and!; [done|done|constructor|constructor|done|done].
  - apply Forall_cons in Hok as [Hkey Hok]. simpl.
    destruct (metric_of_key key) as [[name|]|] eqn:Hm; [| |done]; simpl.
    + destruct (IH (S idx) (un ++ [name]) (mi ++ [idx]) Hok)
        as (names & idxs & -> & Hlen & Hsort & Hge & Hsound & Hcomplete).
      exists (name :: names), (idx :: idxs). rewrite <- !app_assoc. simpl.
      split_and!; [done|by rewrite Hlen| | | |].
      * constructor; [done|]. eapply Forall_impl; [done|]. simpl; lia.
      * constructor; [done|]. eapply Forall_impl; [done|]. simpl; lia.
      * intros [|k] i; simpl.
        -- intros [= <-]. exists key, name. by rewrite Nat.sub_diag.
        -- intros Hk. destruct (Hsound k i Hk) as (key' & name' & Hkey' & ? & ?).
           assert (S idx ≤ i) by (eapply (Forall_lookup_1 _ idxs); done).
           exists key', name'. replace (i - idx) with (S (i - S idx)) by lia. done.
      * intros [|n] key' name'; simpl.
        -- intros _ _. rewrite Nat.add_0_r. left.
        -- intros Hk Hm'. right. replace (idx + S n) with (S idx + n) by lia. eauto.
    + destruct (IH (S idx) un mi Hok)
        as (names & idxs & -> & Hlen & Hsort & Hge & Hsound & Hcomplete).
      exists names, idxs.
      split_and!; [done|done|done| | |].
      * eapply Forall_impl; [done|]. simpl; lia.
      * intros k i Hk. destruct (Hsound k i Hk) as (key' & name' & Hkey' & ? & ?).
        assert (S idx ≤ i) by (eapply (Forall_lookup_1 _ idxs); done).
        exists key', name'. replace (i - idx) with (S (i - S idx)) by lia. done.
      * intros [|n] key' name'; simpl.
        -- intros [= <-]. congruence.
        -- intros Hk Hm'. replace (idx + S n) with (S idx + n) by lia. eauto.
Qed.

Lemma StronglySorted_lt_NoDup (l : list nat) : StronglySorted lt l → NoDup l.
Proof.
  induction 1 as [|x l Hs IH Hall]; constructor; [|done].
  intros Hin. eapply Forall_forall in Hall; [|done]. lia.
Qed.

(** Claim C9, as amended.  On every list of header cells none of which
    makes the normalizer raise, the metric normalizer returns two lists of
    equal length, names and column indices; the indices are strictly
    increasing, so each appears at most once; every returned index is that
    of a header other than Arch, Input Size, ckpt and log, whose name comes
    from the first vocabulary term that matches it; and every such header
    with a matching term is returned. *)
Theorem collate_metrics_invariant (keys : list string) :
  Forall (λ key, is_ok (metric_of_key key) = true) keys →
  ∃ names idxs,
    collate_metrics keys = Ok (names, idxs)
    ∧ length names = length idxs
    ∧ StronglySorted lt idxs
    ∧ NoDup idxs
    ∧ (∀ k i, idxs !! k = Some i →
         ∃ key metric name,
           keys !! i = Some key ∧ (key ∉ non_metric_columns)
           ∧ first_matching all_metrics metric key
           ∧ used_metric_of metric key = Ok name
           ∧ names !! k = Some name)
    ∧ (∀ i key, keys !! i = Some key → key ∉ non_metric_columns →
         is_Some (first_match key) → (i ∈ idxs)).
Proof.
  intros Hok.
  destruct (collate_from_spec keys 0 [] [] Hok)
    as (names & idxs & Heq & Hlen & Hsort & _ & Hsound & Hcomplete).
  exists names, idxs. split_and!; [done|done|done|by apply StronglySorted_lt_NoDup| |].
  - intros k i Hk. destruct (Hsound k i Hk) as (key & name & Hkey & Hname & Hm).
    rewrite Nat.sub_0_r in Hkey.
    apply metric_of_key_Some in Hm as (Hcol & metric & Hfirst & Hused).
    by exists key, metric, name.
  - intros i key Hkey Hcol [metric Hfirst].
    assert (is_ok (metric_of_key key) = true) as Hk
      by (by apply (Forall_lookup_1 (λ key, is_ok (metric_of_key key) = true) keys i)).
    destruct (metric_of_key key) as [[name|]|] eqn:Hm; [| |done].
    + by apply (Hcomplete i key name).
    + apply metric_of_key_None in Hm as [?|?]; [done|congruence].
Qed.

End CollateFacts.

Lemma collate_metrics_invariant_witness :
  ∃ names idxs,
    @collate_metrics Decimal.instance ["Arch"; "AP"; "AR <sup>50</sup>"; "ckpt"] = Ok (names, idxs)
    ∧ length names = length idxs
    ∧ StronglySorted lt idxs.
Proof.
  destruct (@collate_metrics_invariant Decimal.instance
              ["Arch"; "AP"; "AR <sup>50</sup>"; "ckpt"])
    as (names & idxs & Hreturns & Hlength & Hsorted & _).
  - repeat constructor.
  - exists names, idxs. split_and!; assumption.
Defined.

(** Claim C9 as stated fails: on a header with a [<] that is not closed the
    normalizer returns no lists, it raises. *)
Lemma collate_metrics_unclosed_bracket :
  @collate_metrics Decimal.instance ["Arch"; "AP<"; "ckpt"] = Raise IndexError.
Proof. reflexivity. Qed.

Lemma rewrite_key_plain (pre t : string) :
  Str.mem "<" pre = false →
  rewrite_key false (pre +:+ t)
  = (λ u, emphasis_to_space pre +:+ u) <$> rewrite_key false t.
Proof.
  induction pre as [|c pre IH]; simpl.
  - intros _. by destruct (rewrite_key false t).
  - rewrite (Ascii.eqb_sym "<" c). destruct (Ascii.eqb c "<") eqn:Hc; [done|].
    simpl. intros Hpre. rewrite (IH Hpre). unfold emphasis_to_space. simpl.
    by destruct (Ascii.eqb c "*" || Ascii.eqb c "_"), (rewrite_key false t).
Qed.

Lemma rewrite_key_skip (mid rest : string) :
  Str.mem ">" mid = false →
  rewrite_key true (mid +:+ ">" +:+ rest) = rewrite_key false rest.
Proof.
  induction mid as [|c mid IH]; simpl; [done|].
  rewrite (Ascii.eqb_sym ">" c). destruct (Ascii.eqb c ">"); [done|]. apply IH.
Qed.

Lemma rewrite_key_without_brackets (key r : string) :
  without_brackets key r → rewrite_key false key = Ok (emphasis_to_space r).
Proof.
  induction 1 as [s Hs|pre mid rest r Hpre Hmid _ IH].
  - rewrite <- (str_app_nil_r s) at 1. rewrite rewrite_key_plain by done. simpl.
    by rewrite str_app_nil_r.
  - rewrite rewrite_key_plain by done.
    change (rewrite_key false ("<" +:+ ?t)) with (rewrite_key true t).
    rewrite rewrite_key_skip by done. rewrite IH. simpl.
    unfold emphasis_to_space. by rewrite str_map_app.
Qed.










Section NameFacts.
Context `{PyFloat}.



(** A header whose brackets are closed makes the normalizer raise only
    through the conversion of a digit run to a float. *)
Lemma metric_of_key_returns (key r : string) :
  without_brackets key r →
  (∀ n, is_ok (threshold_str n) = true) →
  is_ok (metric_of_key key) = true.
Proof.
  intros Hr Hfloat. unfold metric_of_key.
  destruct (bool_decide (key ∈ non_metric_columns)); [done|].
  destruct (first_match key) as [metric|]; [|done].
  unfold used_metric_of. rewrite (rewrite_key_without_brackets key r Hr). simpl.
  destruct (bool_decide (metric ∈ ["ap"; "ar"])); [|done].
  unfold at_threshold.
  destruct (Str.span _ (Str.strip (emphasis_to_space r))) as [before_digits rest].
  destruct (Str.span Str.is_digit rest) as [digits after_digits].
  destruct (Str.eqb digits ""); [done|].
  specialize (Hfloat (Str.int digits)).
  by destruct (threshold_str (Str.int digits)).
Qed.


End NameFacts.


(** ** Paths *)

Lemma take_app_length (a b : string) : Str.take (String.length a) (a +:+ b) = a.
Proof. induction a as [|c a IH]; simpl; [by destruct b | by rewrite IH]. Qed.

Lemma drop_app_length (a b : string) : Str.drop (String.length a) (a +:+ b) = b.
Proof. induction a as [|c a IH]; simpl; [done | by rewrite IH]. Qed.

Lemma take_length (a : string) : Str.take (String.length a) a = a.
Proof. rewrite <- (str_app_nil_r a) at 2. apply take_app_length. Qed.

Lemma mem_app (c : ascii) (a b : string) :
  Str.mem c (a +:+ b) = Str.mem c a || Str.mem c b.
Proof. induction a as [|x a IH]; simpl; [done | by rewrite IH, orb_assoc]. Qed.

Lemma starts_with_char_mem (c : ascii) (s : string) :
  Str.mem c s = false → Str.starts_with (String c "") s = false.
Proof.
  destruct s as [|x s]; simpl; [done|].
  intros Hm. apply orb_false_iff in Hm as [-> _]. done.
Qed.

Lemma rfind_char_absent (c : ascii) (s : string) :
  Str.mem c s = false → Str.rfind (String c "") s = None.
Proof.
  induction s as [|x s IH]; [done|]. intros Hm.
  change (Str.rfind (String c "") (String x s))
    with (match Str.rfind (String c "") s with
          | Some k => Some (S k)
          | None => if Str.starts_with (String c "") (String x s) then Some 0 else None
          end).
  rewrite (starts_with_char_mem c (String x s) Hm).
  simpl in Hm. apply orb_false_iff in Hm as [_ Hm]. by rewrite (IH Hm).
Qed.

Lemma rfind_char_last (c : ascii) (a b : string) :
  Str.mem c b = false →
  Str.rfind (String c "") (a +:+ String c b) = Some (String.length a).
Proof.
  intros Hb. induction a as [|x a IH].
  - change (Str.rfind (String c "") ("" +:+ String c b))
      with (match Str.rfind (String c "") b with
            | Some k => Some (S k)
            | None => if Str.starts_with (String c "") (String c b) then Some 0 else None
            end).
    rewrite (rfind_char_absent c b Hb). simpl. by rewrite Ascii.eqb_refl.
  - change (Str.rfind (String c "") (String x a +:+ String c b))
      with (match Str.rfind (String c "") (a +:+ String c b) with
            | Some k => Some (S k)
            | None => if Str.starts_with (String c "") (String x (a +:+ String c b))
                      then Some 0 else None
            end).
    by rewrite IH.
Qed.

Lemma lstrip_by_head (p : ascii → bool) (c : ascii) (s : string) :
  p c = false → Str.lstrip_by p (String c s) = String c s.
Proof. intros Hc. simpl. by rewrite Hc. Qed.

Lemma rstrip_by_last (p : ascii → bool) (a : string) (c : ascii) :
  p c = false → Str.rstrip_by p (a +:+ String c "") = a +:+ String c "".
Proof.
  intros Hc. induction a as [|x a IH]; simpl.
  - by rewrite Hc.
  - rewrite IH. by destruct a.
Qed.

Lemma last_char (s : string) : s ≠ "" → ∃ a c, s = a +:+ String c "".
Proof.
  induction s as [|x s IH]; [done|]. intros _.
  destruct s as [|y s].
  - by exists "", x.
  - destruct IH as (a & c & Ha); [done|]. exists (String x a), c. by rewrite Ha.
Qed.

Lemma concat_snoc (sep : string) (l : list string) (x : string) :
  String.concat sep (l ++ [x])
  = match l with
    | [] => x
    | _ => String.concat sep l +:+ sep +:+ x
    end.
Proof.
  induction l as [|y l IH]; [done|].
  change ((y :: l) ++ [x]) with (y :: (l ++ [x])).
  destruct l as [|z l]; [done|].
  change (String.concat sep (y :: (z :: l) ++ [x]))
    with (y +:+ sep +:+ String.concat sep ((z :: l) ++ [x])).
  rewrite IH.
  change (String.concat sep (y :: z :: l)) with (y +:+ sep +:+ String.concat sep (z :: l)).
  by rewrite !str_app_assoc.
Qed.

Lemma replace_char_app (c : ascii) (new a b : string) :
  Str.replace_char c new (a +:+ b)
  = Str.replace_char c new a +:+ Str.replace_char c new b.
Proof.
  induction a as [|x a IH]; simpl; [done|].
  rewrite IH. destruct (Ascii.eqb x c); [by rewrite str_app_assoc | done].
Qed.

Lemma replace_char_absent (c : ascii) (new s : string) :
  Str.mem c s = false → Str.replace_char c new s = s.
Proof.
  induction s as [|x s IH]; simpl; [done|].
  rewrite (Ascii.eqb_sym c x). intros Hm. apply orb_false_iff in Hm as [-> Hm].
  by rewrite (IH Hm).
Qed.

Lemma replace_char_concat (c : ascii) (new : string) (parts : list string) :
  Forall (λ part, Str.mem c part = false) parts →
  Str.replace_char c new (String.concat (String c "") parts)
  = String.concat new parts.
Proof.
  induction parts as [|x parts IH]; [done|]. intros Hall.
  apply Forall_cons in Hall as [Hx Hall].
  destruct parts as [|y parts]; [by apply replace_char_absent|].
  change (String.concat ?sep (x :: y :: parts))
    with (x +:+ sep +:+ String.concat sep (y :: parts)).
  rewrite !replace_char_app, (IH Hall), (replace_char_absent _ _ _ Hx).
  simpl. by rewrite Ascii.eqb_refl, str_app_nil_r.
Qed.

Lemma drop_app_plus (n : nat) (a b : string) :
  Str.drop (String.length a + n) (a +:+ b) = Str.drop n b.
Proof. induction a as [|c a IH]; simpl; [done | by rewrite IH]. Qed.

Lemma splitext_root_ext (dir file ext : string) :
  Str.mem "/" file = false → all_dots file = false →
  Str.mem "/" ext = false → Str.mem "." ext = false →
  splitext_root (dir +:+ "/" +:+ file +:+ "." +:+ ext) = dir +:+ "/" +:+ file.
Proof.
  intros Hfile Hnamed Hslash Hdot. unfold splitext_root.
  assert (Str.rfind "." (dir +:+ "/" +:+ file +:+ "." +:+ ext)
          = Some (String.length (dir +:+ "/" +:+ file))) as ->.
  { rewrite <- (str_app_assoc dir "/" (file +:+ _)), <- (str_app_assoc _ file).
    rewrite (str_app_assoc dir "/" file). by apply (rfind_char_last "."). }
  assert (Str.rfind "/" (dir +:+ "/" +:+ file +:+ "." +:+ ext)
          = Some (String.length dir)) as ->.
  { apply (rfind_char_last "/"). rewrite mem_app, Hfile. simpl. by rewrite Hslash. }
  cbn [from_option].
  rewrite bool_decide_eq_true_2 by (rewrite str_app_length; simpl; lia).
  assert (Str.slice (S (String.length dir)) (String.length (dir +:+ "/" +:+ file))
            (dir +:+ "/" +:+ file +:+ "." +:+ ext) = file) as ->.
  { unfold Str.slice.
    replace (S (String.length dir)) with (String.length dir + 1) by lia.
    rewrite drop_app_plus.
    change (Str.drop 1 ("/" +:+ ?t)) with t.
    replace (String.length (dir +:+ "/" +:+ file) - (String.length dir + 1))
      with (String.length file) by (rewrite str_app_length; simpl; lia).
    apply take_app_length. }
  rewrite Hnamed. cbn [andb negb].
  replace (dir +:+ "/" +:+ file +:+ "." +:+ ext)
    with ((dir +:+ "/" +:+ file) +:+ "." +:+ ext) by (by rewrite !str_app_assoc).
  apply take_app_length.
Qed.

Section ConfigTarget.
Variables (dirs : list string) (file ext : string).
Hypothesis dirs_plain : Forall (λ d, Str.mem "/" d = false) dirs.
Hypothesis file_plain : Str.mem "/" file = false.
Hypothesis file_named : all_dots file = false.
Hypothesis ext_given : ext ≠ "".
Hypothesis ext_plain : Str.mem "/" ext = false ∧ Str.mem "." ext = false.

Let stem : string := "configs/" +:+ String.concat "/" (dirs ++ [file]).

Lemma config_target_stem : config_target dirs file ext = stem +:+ "." +:+ ext.
Proof.
  unfold config_target, stem. rewrite !concat_snoc.
  destruct dirs; by rewrite !str_app_assoc.
Qed.

Lemma config_target_dir :
  ∃ dir, stem = dir +:+ "/" +:+ file.
Proof.
  unfold stem. rewrite concat_snoc. destruct dirs as [|d ds].
  - by exists "configs".
  - exists ("configs/" +:+ String.concat "/" (d :: ds)). by rewrite !str_app_assoc.
Qed.

Lemma strip_config_target :
  Str.strip_chars "./" (config_target dirs file ext) = config_target dirs file ext.
Proof.
  unfold Str.strip_chars, Str.strip_by.
  assert (Str.lstrip_by (λ a, Str.mem a "./") (config_target dirs file ext)
          = config_target dirs file ext) as -> by done.
  rewrite config_target_stem.
  destruct (last_char ext ext_given) as (a & c & Hext).
  rewrite Hext, <- !str_app_assoc. apply rstrip_by_last.
  destruct ext_plain as [Hslash Hdot]. rewrite Hext, mem_app in Hslash, Hdot.
  apply orb_false_iff in Hslash as [_ Hslash], Hdot as [_ Hdot].
  simpl in *. rewrite orb_false_r in *.
  rewrite (Ascii.eqb_sym c "."), (Ascii.eqb_sym c "/"), Hslash, Hdot. done.
Qed.

Lemma splitext_config_target : splitext_root (config_target dirs file ext) = stem.
Proof.
  destruct ext_plain as [Hslash Hdot].
  destruct config_target_dir as [dir Hdir].
  rewrite config_target_stem, Hdir, !str_app_assoc.
  by apply splitext_root_ext.
Qed.

Lemma model_name_of_config_target :
  model_name_of (Str.strip_chars "./" (config_target dirs file ext))
  = String.concat "--" (dirs ++ [file]).
Proof.
  unfold model_name_of. rewrite strip_config_target, splitext_config_target.
  unfold stem.
  assert (∀ t, Str.replace_first "configs/" "" ("configs/" +:+ t) = t) as -> by done.
  apply (replace_char_concat "/" "--").
  apply Forall_app. split; [done|]. by constructor.
Qed.

End ConfigTarget.


#[local] Arguments Str.take : simpl never.
#[local] Arguments Str.eqb : simpl never.


(** ** Rows and blocks *)

Lemma bind_Ok {A B : Type} (r : result A) (k : A → result B) (b : B) :
  r ≫= k = Ok b → ∃ a, r = Ok a ∧ k a = Ok b.
Proof. destruct r as [a|e]; [by exists a | done]. Qed.

Lemma link_target_contains (cell target : string) :
  link_target cell = Ok target → Str.contains "](" cell = true.
Proof.
  unfold link_target, Str.index_from, Str.find_from, Str.contains.
  intros Hl. apply bind_Ok in Hl as (k & Hk & _).
  rewrite decide_True in Hk by lia. change (Str.drop 0 cell) with cell in Hk.
  apply bool_decide_eq_true. destruct (Str.find "](" cell); [eauto | done].
Qed.

Section RowFacts.
Context `{PyFloat}.

Lemma parse_row_model (hdr : table_header) (collection_name task : string)
    (dataset : option string) (row cell target : string) (m : model) :
  middle (Str.split "|" row) !! config_idx hdr = Some cell →
  link_target cell = Ok target →
  parse_row hdr collection_name task dataset row = Ok (Some m) →
  model_Config m = Str.strip_chars "./" target
  ∧ model_Name m = model_name_of (Str.strip_chars "./" target)
  ∧ model_InCollection m = collection_name
  ∧ dataset = Some (meta_TrainingData (model_Metadata m)).
Proof.
  intros Hcell Htarget. unfold parse_row. rewrite Hcell. simpl.
  rewrite (link_target_contains _ _ Htarget), Htarget. simpl.
  intros Hrow.
  apply bind_Ok in Hrow as (ckpt_cell & _ & Hrow).
  apply bind_Ok in Hrow as (ckpt & _ & Hrow).
  apply bind_Ok in Hrow as (training_data & Hdata & Hrow).
  apply bind_Ok in Hrow as (flops & _ & Hrow).
  apply bind_Ok in Hrow as (params & _ & Hrow).
  apply bind_Ok in Hrow as (metrics & _ & Hrow).
  simplify_eq/=. split_and!; [done..|].
  by destruct dataset; simplify_eq/=.
Qed.

(** Claim C5.  For every link target of the form
    [configs/<dirs...>/<file>.<ext>] found in the Arch cell of a table row
    (the names hold no separator, the file name is not made of dots only,
    the extension is not empty and holds no dot), the model name of the
    record of that row is the path without its extension and without the
    [configs/] prefix, each separator replaced by [--]; the configuration
    path is the link target. *)
Theorem model_name_of_config_link (hdr : table_header) (collection_name task : string)
    (dataset : option string) (row cell : string) (m : model)
    (dirs : list string) (file ext : string) :
  Forall (λ d, Str.mem "/" d = false) dirs →
  Str.mem "/" file = false →
  all_dots file = false →
  ext ≠ "" →
  Str.mem "/" ext = false ∧ Str.mem "." ext = false →
  middle (Str.split "|" row) !! config_idx hdr = Some cell →
  link_target cell = Ok (config_target dirs file ext) →
  parse_row hdr collection_name task dataset row = Ok (Some m) →
  model_Name m = String.concat "--" (dirs ++ [file])
  ∧ model_Config m = config_target dirs file ext.
Proof.
  intros Hdirs Hfile Hnamed Hext Hplain Hcell Htarget Hrow.
  destruct (parse_row_model _ _ _ _ _ _ _ _ Hcell Htarget Hrow) as (Hconfig & Hname & _).
  rewrite Hname, Hconfig. split.
  - by apply model_name_of_config_target.
  - by apply strip_config_target.
Qed.

Lemma parse_row_unlinked (hdr : table_header) (collection_name task : string)
    (dataset : option string) (row cell : string) :
  middle (Str.split "|" row) !! config_idx hdr = Some cell →
  Str.contains "](" cell = false →
  parse_row hdr collection_name task dataset row = Ok None.
Proof. intros Hcell Hlink. unfold parse_row. rewrite Hcell. simpl. by rewrite Hlink. Qed.

Lemma table_rows_unlinked (hdr : table_header) (collection_name task : string)
    (row : string) (rows : list string) (j : nat) (st : locals) :
  arch_unlinked hdr row →
  table_rows hdr collection_name task (row :: rows) j st
  = table_rows hdr collection_name task rows (S j) st.
Proof.
  intros (cell & Hfirst & Hcell & Hlink). simpl. rewrite Hfirst. simpl.
  by rewrite (parse_row_unlinked _ _ _ _ _ _ Hcell Hlink).
Qed.

(** Claim C7.  In every table, a data row whose Arch cell holds no Markdown
    link gives no model record and raises nothing, and the loop over the
    rows goes on with the next row of the same table, the locals as they
    were. *)
Theorem row_without_link_skipped (hdr : table_header) (collection_name task : string)
    (row : string) (rows : list string) (j : nat) (st : locals) (cell : string) :
  first_char row = Ok "|"%char →
  middle (Str.split "|" row) !! config_idx hdr = Some cell →
  Str.contains "](" cell = false →
  parse_row hdr collection_name task (loc_dataset st) row = Ok None
  ∧ table_rows hdr collection_name task (row :: rows) j st
    = table_rows hdr collection_name task rows (S j) st.
Proof.
  intros Hfirst Hcell Hlink. split.
  - by apply (parse_row_unlinked _ _ _ _ _ cell).
  - apply table_rows_unlinked. by exists cell.
Qed.

(** Claim C8.  For every reference block whose fourth line holds an anchor,
    the URL of the anchor is appended to the Paper list whatever the type of
    the block; the name of the anchor is appended to the Architecture list
    exactly when the first line holds ALGORITHM or BACKBONE, and becomes the
    data set exactly when it holds DATASET and neither of the two; the scan
    goes on four lines further. *)
Theorem annotation_block (collection_name task : string) (lines : list string)
    (i : nat) (st : locals) (line anchor_line url name : string) :
  lines !! i = Some line →
  Str.take 2 line = "<!" →
  lines !! (i + 3) = Some anchor_line →
  find_anchor anchor_line = Ok (url, name) →
  let name := Str.strip (Str.before "(" name) in
  let architecture := Str.contains "ALGORITHM" line || Str.contains "BACKBONE" line in
  ∃ st',
    step collection_name task lines i st = Ok (i + 4, st')
    ∧ loc_Paper st' = loc_Paper st ++ [url]
    ∧ loc_Architecture st'
      = (if architecture then loc_Architecture st ++ [name] else loc_Architecture st)
    ∧ loc_dataset st'
      = (if negb architecture && Str.contains "DATASET" line then Some name
         else loc_dataset st)
    ∧ loc_models st' = loc_models st.
Proof.
  intros Hline Hopen Hanchor Hfind name' architecture.
  unfold step, annotation. rewrite Hline. simpl. rewrite Hopen.
  change (Str.eqb "<!" "<!") with true. cbv iota.
  rewrite Hanchor. simpl. rewrite Hfind. simpl.
  eexists. split; [done|]. simpl. fold architecture.
  split_and!; [done|done| |done].
  destruct architecture; [done|]. simpl. by destruct (Str.contains "DATASET" line).
Qed.

End RowFacts.

(** ** The scan *)

Section ScanFacts.
Context `{PyFloat}.
Variables (collection_name task : string).

Lemma table_rows_result (hdr : table_header) (rows : list string) :
  ∀ j st j' st',
    table_rows hdr collection_name task rows j st = Ok (j', st') →
    j ≤ j' ∧ loc_dataset st' = loc_dataset st
    ∧ loc_Architecture st' = loc_Architecture st ∧ loc_Paper st' = loc_Paper st.
Proof.
  induction rows as [|row rows IH]; intros j st j' st'; simpl.
  - by intros [= <- <-].
  - intros Hrows. apply bind_Ok in Hrows as (c & _ & Hrows).
    destruct (Ascii.eqb c "|"); [|by injection Hrows as <- <-].
    apply bind_Ok in Hrows as ([m|] & _ & Hrows);
      apply IH in Hrows as (? & ? & ? & ?); simpl in *; split_and!; (lia || congruence).
Qed.

Lemma step_progress (lines : list string) (i : nat) (st : locals) (i' : nat) (st' : locals) :
  step collection_name task lines i st = Ok (i', st') → i < i'.
Proof.
  unfold step. intros Hstep.
  apply bind_Ok in Hstep as (line & _ & Hstep).
  destruct (Str.eqb (Str.take 2 line) "<!").
  - apply bind_Ok in Hstep as (? & _ & [= <- <-]). lia.
  - apply bind_Ok in Hstep as (c & _ & Hstep).
    destruct (Ascii.eqb c "|" && separator_follows lines i).
    + apply bind_Ok in Hstep as (hdr & _ & Hstep).
      apply table_rows_result in Hstep as [? _]. lia.
    + injection Hstep as <- <-. lia.
Qed.

Lemma scan_S (lines : list string) (fuel i : nat) (st : locals) :
  scan (S fuel) collection_name task lines i st
  = if decide (i < length lines) then
      match step collection_name task lines i st with
      | Ok (i', st') => scan fuel collection_name task lines i' st'
      | Raise e => Some (Raise e)
      end
    else Some (Ok st).
Proof. done. Qed.

Lemma scan_fuel (lines : list string) (fuel1 : nat) :
  ∀ fuel2 i st,
    length lines - i < fuel1 → length lines - i < fuel2 →
    scan fuel1 collection_name task lines i st
    = scan fuel2 collection_name task lines i st.
Proof.
  induction fuel1 as [|fuel1 IH]; intros [|fuel2] i st Hf1 Hf2; [lia..|].
  simpl. case_decide as Hi; [|done].
  destruct (step collection_name task lines i st) as [[i' st']|e] eqn:Hstep; [|done].
  apply step_progress in Hstep. apply IH; lia.
Qed.

Lemma scan_returns (lines : list string) (fuel : nat) :
  ∀ i st, length lines - i < fuel →
    is_Some (scan fuel collection_name task lines i st).
Proof.
  induction fuel as [|fuel IH]; intros i st Hf; [lia|].
  simpl. case_decide as Hi; [|by eexists].
  destruct (step collection_name task lines i st) as [[i' st']|e] eqn:Hstep; [|by eexists].
  apply step_progress in Hstep. apply IH; lia.
Qed.


Lemma scan_reaches (lines : list string) (s s' : nat * locals) :
  reaches collection_name task lines s s' →
  scan (S (length lines)) collection_name task lines s.1 s.2
  = scan (S (length lines)) collection_name task lines s'.1 s'.2.
Proof.
  induction 1 as [|i st i' st' s Hi Hstep _ IH]; [done|].
  rewrite <- IH. pose proof (step_progress _ _ _ _ _ Hstep).
  transitivity (scan (length lines) collection_name task lines i' st').
  - rewrite scan_S. simpl. by rewrite decide_True, Hstep.
  - apply scan_fuel; simpl; lia.
Qed.

Lemma parse_lines_scan (lines : list string) :
  scan (S (length lines)) collection_name task lines 0 init_locals
  = Some (parse_lines collection_name task lines).
Proof.
  unfold parse_lines.
  destruct (scan_returns lines (S (length lines)) 0 init_locals) as [r ->]; [lia|done].
Qed.

Lemma parse_lines_raise (lines : list string) (i : nat) (st : locals) (e : exn) :
  reaches collection_name task lines (0, init_locals) (i, st) →
  i < length lines →
  step collection_name task lines i st = Raise e →
  parse_lines collection_name task lines = Raise e.
Proof.
  intros Hreach Hi Hstep. apply scan_reaches in Hreach. cbn [fst snd] in Hreach.
  rewrite parse_lines_scan in Hreach.
  rewrite scan_S, decide_True, Hstep in Hreach by done. congruence.
Qed.





End ScanFacts.
(** ** Runs of the tool *)

Section RunFacts.
Context `{PyFloat}.
Variable MMPOSE_ROOT : string.
Variable relpath : string → string.
Variable glob_yml : gset string → list string.
Variable dump : yaml_obj → string.

Abbreviation tool_parse_md := (parse_md relpath dump).
Abbreviation tool_parse_all := (parse_all relpath dump).
Abbreviation tool_update_model_index := (update_model_index MMPOSE_ROOT relpath glob_yml dump).
Abbreviation tool_main := (main MMPOSE_ROOT relpath glob_yml dump).
Abbreviation tool_dump_yaml_and_check_difference := (dump_yaml_and_check_difference dump).


Lemma dump_yaml_result (obj : yaml_obj) (file : string) (w : world) :
  tool_dump_yaml_and_check_difference obj file w
  = (Ok (text_changed (written w file (dump obj))), after_write w file (dump obj)).
Proof.
  unfold dump_yaml_and_check_difference, text_changed, written, after_write.
  unfold mbind, io_bind, isfile, read_text, write_text. simpl.
  destruct (files w !! file) as [before|] eqn:Hfile; simpl.
  - rewrite Hfile. simpl. rewrite lookup_insert_eq. done.
  - unfold written. by rewrite Hfile.
Qed.

Lemma parse_md_parse_doc (md_file : string) (w : world) :
  tool_parse_md md_file w
  = match parse_doc relpath md_file (files w) with
    | Ok obj => tool_dump_yaml_and_check_difference obj (yml_file_of md_file) w
    | Raise e => (Raise e, w)
    end.
Proof.
  unfold parse_md, parse_doc, get_task_name, readme_path.
  unfold mbind at 1 2 3 4 5 6 7. unfold io_bind, lift, read_text. simpl.
  destruct (osp_relpath relpath md_file) as [readme|e] eqn:Hrel; simpl; [|done].
  assert (readme = relpath md_file) as ->.
  { unfold osp_relpath in Hrel. destruct (Str.eqb md_file ""); congruence. }
  destruct (files w !! path_join (rsplit3_head (relpath md_file)) "README.md")
    as [readme_text|]; simpl; [|done].
  destruct (files w !! md_file) as [text|]; simpl; [|done].
  by destruct (parse_lines _ _ _).
Qed.

Lemma parse_md_result (md_file : string) (w : world) (r : result bool) (w' : world) :
  tool_parse_md md_file w = (r, w') →
  (∃ e, r = Raise e ∧ w' = w ∧ parse_doc relpath md_file (files w) = Raise e)
  ∨ (∃ obj, parse_doc relpath md_file (files w) = Ok obj
            ∧ r = Ok (text_changed (written w (yml_file_of md_file) (dump obj)))
            ∧ w' = after_write w (yml_file_of md_file) (dump obj)).
Proof.
  rewrite parse_md_parse_doc.
  destruct (parse_doc relpath md_file (files w)) as [obj|e].
  - rewrite dump_yaml_result. intros [= <- <-]. right. by exists obj.
  - intros [= <- <-]. left. by exists e.
Qed.

Lemma parse_all_cons (fn : string) (file_list : list string) (file_modified : bool) (w : world) :
  tool_parse_all (fn :: file_list) file_modified w
  = match tool_parse_md fn w with
    | (Ok changed, w') => tool_parse_all file_list (file_modified || changed) w'
    | (Raise e, w') => (Raise e, w')
    end.
Proof. done. Qed.

(** The writes of a completed loop over the documents, and its flag *)
Lemma parse_all_result (file_list : list string) :
  ∀ file_modified w changed w',
    tool_parse_all file_list file_modified w = (Ok changed, w') →
    ∃ evs, history w' = history w ++ evs
           ∧ changed = file_modified || existsb text_changed evs.
Proof.
  induction file_list as [|fn file_list IH]; intros file_modified w changed w'.
  - intros [= <- <-]. exists []. by rewrite app_nil_r, orb_false_r.
  - rewrite parse_all_cons.
    destruct (tool_parse_md fn w) as [r w1] eqn:Hmd.
    apply parse_md_result in Hmd as [(e & -> & _)|(obj & _ & -> & ->)]; [done|].
    intros Hrest. apply IH in Hrest as (evs & Hhist & ->).
    exists (written w (yml_file_of fn) (dump obj) :: evs). split.
    + rewrite Hhist. simpl. by rewrite <- app_assoc.
    + simpl. by rewrite orb_assoc.
Qed.

Lemma update_model_index_result (w : world) (r : result bool) (w' : world) :
  tool_update_model_index w = (r, w') →
  (∃ e, r = Raise e ∧ w' = w)
  ∨ (∃ imports,
       mapM (osp_relpath relpath) (merge_sort String.le (glob_yml (dom (files w))))
       = Ok imports
       ∧ r = Ok (text_changed (written w (model_index_file MMPOSE_ROOT)
                                 (dump (ModelIndex imports))))
       ∧ w' = after_write w (model_index_file MMPOSE_ROOT) (dump (ModelIndex imports))).
Proof.
  unfold update_model_index. unfold mbind at 1 2. unfold io_bind, lift.
  destruct (mapM _ _) as [imports|e].
  - rewrite dump_yaml_result. intros [= <- <-]. right. by exists imports.
  - intros [= <- <-]. left. by exists e.
Qed.

(** Claim C1, as amended.  For every run that ends through [exit], the exit
    status is 0 if no write of the run changed the text of its file, and 1
    if at least one did; a write changed the text when the file did not
    exist or when the text read back, line endings read as line feeds, is
    not the text that was read before the write.  A run without a document
    to process writes nothing and exits with 0. *)
Theorem exit_status_of_completed_run (args : list string) (w : world) (n : Z) (w' : world) :
  tool_main args w = (Ok n, w') →
  ∃ evs, history w' = history w ++ evs
         ∧ exit_status (Ok n) = if existsb text_changed evs then 1%Z else 0%Z.
Proof.
  unfold main.
  destruct (file_list_of args) as [|fn file_list] eqn:Hlist.
  - intros [= <- <-]. exists []. by rewrite app_nil_r.
  - unfold mbind at 1. unfold io_bind.
    destruct (tool_parse_all (fn :: file_list) false w) as [[changed|e] w1] eqn:Hall; [|done].
    apply parse_all_result in Hall as (evs & Hhist & ->).
    unfold mbind at 1. unfold io_bind.
    destruct (tool_update_model_index w1) as [r w2] eqn:Hindex.
    apply update_model_index_result in Hindex as [(e & -> & _)|(imports & _ & -> & ->)]; [done|].
    intros [= <- <-].
    exists (evs ++ [written w1 (model_index_file MMPOSE_ROOT) (dump (ModelIndex imports))]).
    split.
    + simpl. by rewrite Hhist, <- app_assoc.
    + simpl. rewrite existsb_app. simpl. by rewrite orb_false_r.
Qed.

End RunFacts.

Section AbortFacts.
Context `{PyFloat}.
Variable MMPOSE_ROOT : string.
Variable relpath : string → string.
Variable glob_yml : gset string → list string.
Variable dump : yaml_obj → string.

Abbreviation tool_parse_md := (parse_md relpath dump).
Abbreviation tool_parse_all := (parse_all relpath dump).
Abbreviation tool_update_model_index := (update_model_index MMPOSE_ROOT relpath glob_yml dump).
Abbreviation tool_main := (main MMPOSE_ROOT relpath glob_yml dump).
Abbreviation tool_dump_yaml_and_check_difference := (dump_yaml_and_check_difference dump).


Lemma step_malformed_block (collection_name task : string) (lines : list string)
    (i : nat) (st : locals) :
  malformed_block lines i →
  step collection_name task lines i st = Raise IndexError.
Proof.
  intros (line & Hline & Hopen & Hanchor). unfold step, annotation.
  rewrite Hline. simpl. rewrite Hopen.
  destruct Hanchor as [->|(anchor_line & -> & Hnone)]; [done|].
  simpl. unfold find_anchor. by rewrite Hnone.
Qed.

Lemma step_table_missing_column (collection_name task : string) (lines : list string)
    (i : nat) (st : locals) :
  table_missing_column lines i →
  step collection_name task lines i st = Raise ValueError.
Proof.
  intros (header & Hheader & Hfirst & Hsep & Hcols). unfold step.
  rewrite Hheader. simpl.
  assert (Str.eqb (Str.take 2 header) "<!" = false) as ->.
  { destruct header as [|c header]; [done|]. simpl in Hfirst. injection Hfirst as ->. done. }
  rewrite Hfirst. simpl. rewrite Hsep. simpl. unfold parse_header.
  destruct Hcols as [->| ->]; [done|].
  by destruct (index_of "Arch" _).
Qed.

Lemma parse_all_app (earlier later : list string) :
  ∀ file_modified w,
    tool_parse_all (earlier ++ later) file_modified w
    = match tool_parse_all earlier file_modified w with
      | (Ok changed, w') => tool_parse_all later changed w'
      | (Raise e, w') => (Raise e, w')
      end.
Proof.
  induction earlier as [|fn earlier IH]; intros file_modified w; [done|].
  change ((fn :: earlier) ++ later) with (fn :: (earlier ++ later)).
  rewrite !parse_all_cons.
  destruct (parse_md relpath dump fn w) as [[changed|e] w']; [apply IH|done].
Qed.

(** Claim C6.  If the scan of a document comes to a reference block whose
    fourth line is missing or holds no anchor, or to a table whose header
    row has no Arch or no ckpt cell, the whole run ends with the exception
    raised there, and the files are those the earlier documents of the run
    left: what was written for them stays, nothing is undone. *)
Theorem abort_keeps_earlier_outputs (args earlier : list string) (fn : string)
    (later : list string) (w : world) (changed : bool) (w1 : world)
    (readme_text text : string) (i : nat) (st : locals) :
  file_list_of args = earlier ++ fn :: later →
  tool_parse_all earlier false w = (Ok changed, w1) →
  fn ≠ "" →
  files w1 !! readme_path relpath fn = Some readme_text →
  files w1 !! fn = Some text →
  let collection_name := splitext_root (basename fn) in
  let task := Str.strip (Str.drop 2 (readline (universal_newlines readme_text))) in
  let lines := readlines (universal_newlines text) in
  reaches collection_name task lines (0, init_locals) (i, st) →
  malformed_block lines i ∨ table_missing_column lines i →
  ∃ e, (e = IndexError ∨ e = ValueError) ∧ tool_main args w = (Raise e, w1).
Proof.
  intros Hlist Hearlier Hfn Hreadme Htext collection_name task lines Hreach Hbad.
  assert (∃ e, (e = IndexError ∨ e = ValueError)
               ∧ parse_lines collection_name task lines = Raise e) as (e & He & Hparse).
  { destruct Hbad as [Hbad|Hbad].
    - exists IndexError. split; [by left|].
      apply (parse_lines_raise _ _ lines i st); [done| |by apply step_malformed_block].
      destruct Hbad as (line & Hline & _). by eapply lookup_lt_Some.
    - exists ValueError. split; [by right|].
      apply (parse_lines_raise _ _ lines i st); [done| |by apply step_table_missing_column].
      destruct Hbad as (line & Hline & _). by eapply lookup_lt_Some. }
  exists e. split; [done|].
  assert (parse_doc relpath fn (files w1) = Raise e) as Hdoc.
  { unfold parse_doc, osp_relpath. rewrite Hreadme, Htext.
    unfold Str.eqb. rewrite bool_decide_eq_false_2 by done.
    cbn [mbind result_bind or_raise].
    unfold collection_name, task, lines in Hparse. by rewrite Hparse. }
  unfold main. rewrite Hlist.
  destruct (earlier ++ fn :: later) as [|fn0 rest] eqn:Hne; [by destruct earlier|].
  rewrite <- Hne. unfold mbind at 1. unfold io_bind.
  rewrite parse_all_app, Hearlier, parse_all_cons, parse_md_parse_doc, Hdoc. done.
Qed.

End AbortFacts.

Lemma merge_sort_perm (l1 l2 : list string) :
  l1 ≡ₚ l2 → merge_sort String.le l1 = merge_sort String.le l2.
Proof.
  intros Hperm. apply (Sorted_unique String.le); [apply Sorted_merge_sort; apply _..|].
  by rewrite !merge_sort_Permutation.
Qed.

Section SecondRun.
Context `{PyFloat}.
Variable MMPOSE_ROOT : string.
Variable relpath : string → string.
Variable glob_yml : gset string → list string.
Variable dump : yaml_obj → string.

Abbreviation tool_parse_md := (parse_md relpath dump).
Abbreviation tool_parse_all := (parse_all relpath dump).
Abbreviation tool_update_model_index := (update_model_index MMPOSE_ROOT relpath glob_yml dump).
Abbreviation tool_main := (main MMPOSE_ROOT relpath glob_yml dump).
Abbreviation tool_dump_yaml_and_check_difference := (dump_yaml_and_check_difference dump).


Lemma parse_doc_ext (md_file : string) (fs fs' : gmap string string) :
  fs !! md_file = fs' !! md_file →
  fs !! readme_path relpath md_file = fs' !! readme_path relpath md_file →
  parse_doc relpath md_file fs = parse_doc relpath md_file fs'.
Proof. unfold parse_doc. by intros -> ->. Qed.

Lemma text_changed_same (w : world) (file text : string) :
  files w !! file = Some text →
  text_changed (written w file text) = false
  ∧ rewrites_same (written w file text)
  ∧ files (after_write w file text) = files w.
Proof.
  intros Hfile. unfold text_changed, rewrites_same, written, after_write. simpl.
  rewrite Hfile. split_and!; [|done|by apply insert_id].
  unfold Str.eqb. by rewrite bool_decide_eq_true_2.
Qed.

Lemma parse_all_files (file_list : list string) :
  ∀ file_modified w changed w',
    tool_parse_all file_list file_modified w = (Ok changed, w') →
    (∀ fn fn', fn ∈ file_list → fn' ∈ file_list →
       yml_file_of fn ≠ fn' ∧ yml_file_of fn ≠ readme_path relpath fn') →
    (∀ fn fn', fn ∈ file_list → fn' ∈ file_list →
       yml_file_of fn = yml_file_of fn' → fn = fn') →
    (∀ fn, fn ∈ file_list →
       ∃ obj, parse_doc relpath fn (files w) = Ok obj
              ∧ files w' !! yml_file_of fn = Some (dump obj))
    ∧ (∀ p, p ∉ yml_file_of <$> file_list → files w' !! p = files w !! p).
Proof.
  induction file_list as [|fn file_list IH]; intros file_modified w changed w'.
  - intros [= <- <-] _ _. split; [by intros fn ?%elem_of_nil|done].
  - rewrite parse_all_cons.
    destruct (parse_md relpath dump fn w) as [r w1] eqn:Hmd.
    apply parse_md_result in Hmd as [(e & -> & _)|(obj & Hobj & -> & ->)]; [done|].
    intros Hrest Hin Hout.
    apply IH in Hrest as [Hdocs Hother].
    + split.
      * intros f Hf. destruct (decide (f ∈ file_list)) as [Hrest|Hrest].
        -- destruct (Hdocs f Hrest) as (obj' & Hobj' & Hyml). exists obj'.
           split; [|done]. rewrite <- Hobj'.
           destruct (Hin fn f) as [Hne1 Hne2]; [by left|done|].
           apply parse_doc_ext; simpl; by rewrite lookup_insert_ne.
        -- apply elem_of_cons in Hf as [->|?]; [|done].
           exists obj. split; [done|]. rewrite Hother.
           ++ simpl. apply lookup_insert_eq.
           ++ intros (f' & Heq & Hf')%list_elem_of_fmap.
              apply Hrest. rewrite (Hout fn f'); [done|by left|by right|done].
      * intros p Hp. rewrite Hother.
        -- simpl. apply lookup_insert_ne. intros <-. apply Hp. simpl. left.
        -- intros Hp'. apply Hp. simpl. by right.
    + intros f f' Hf Hf'. apply Hin; by right.
    + intros f f' Hf Hf'. apply Hout; by right.
Qed.

Lemma parse_all_again (file_list : list string) :
  ∀ file_modified w,
    (∀ fn, fn ∈ file_list →
       ∃ obj, parse_doc relpath fn (files w) = Ok obj
              ∧ files w !! yml_file_of fn = Some (dump obj)) →
    ∃ evs,
      tool_parse_all file_list file_modified w
      = (Ok file_modified, {| files := files w; history := history w ++ evs |})
      ∧ Forall rewrites_same evs.
Proof.
  induction file_list as [|fn file_list IH]; intros file_modified w Hdocs.
  - exists []. rewrite app_nil_r. by destruct w.
  - destruct (Hdocs fn) as (obj & Hobj & Hyml); [by left|].
    destruct (text_changed_same w _ _ Hyml) as (Hsame & Hev & Hfiles).
    rewrite parse_all_cons, parse_md_parse_doc, Hobj, dump_yaml_result, Hsame.
    rewrite orb_false_r.
    destruct (IH file_modified (after_write w (yml_file_of fn) (dump obj)))
      as (evs & -> & Hevs).
    { intros f Hf. rewrite Hfiles. apply Hdocs. by right. }
    exists (written w (yml_file_of fn) (dump obj) :: evs). split.
    + rewrite Hfiles. simpl. by rewrite <- app_assoc.
    + by constructor.
Qed.

Lemma main_run (args : list string) (w : world) :
  file_list_of args ≠ [] →
  tool_main args w
  = match tool_parse_all (file_list_of args) false w with
    | (Ok file_modified, w') =>
        match tool_update_model_index w' with
        | (Ok index_changed, w'') =>
            (Ok (if file_modified || index_changed then 1%Z else 0%Z), w'')
        | (Raise e, w'') => (Raise e, w'')
        end
    | (Raise e, w') => (Raise e, w')
    end.
Proof.
  unfold main. destruct (file_list_of args) as [|fn rest]; [done|].
  intros _. unfold mbind at 1. unfold io_bind.
  destruct (parse_all _ _ _ _ _) as [[file_modified|e] w']; [|done].
  unfold mbind at 1. unfold io_bind.
  by destruct (update_model_index _ _ _ _ _) as [[index_changed|e] w''].
Qed.

(** Claim C2, as amended.  Let a first run end through [exit]; let no file
    it reads be one it writes, let different documents have different
    descriptor paths, none of them the path of the index; and let the index
    itself not be among the files that the search for descriptors returns.
    Then a second run on the files the first one left exits with 0, and
    every one of its writes puts back, character for character, the content
    the first run wrote: the files are unchanged. *)
Theorem second_run_changes_nothing (args : list string) (w0 : world) (n : Z) (w1 : world) :
  (∀ paths, glob_yml ({[(model_index_file MMPOSE_ROOT)]} ∪ paths) ≡ₚ glob_yml paths) →
  tool_main args w0 = (Ok n, w1) →
  (∀ p, p ∈ inputs_of relpath (file_list_of args) →
        p ∉ outputs_of MMPOSE_ROOT (file_list_of args)) →
  (∀ fn fn', fn ∈ file_list_of args → fn' ∈ file_list_of args →
     yml_file_of fn = yml_file_of fn' → fn = fn') →
  (model_index_file MMPOSE_ROOT) ∉ yml_file_of <$> file_list_of args →
  ∃ evs,
    tool_main args w1 = (Ok 0%Z, {| files := files w1; history := history w1 ++ evs |})
    ∧ Forall rewrites_same evs.
Proof.
  intros Hglob Hrun Hin Hout Hindex.
  destruct (decide (file_list_of args = [])) as [Hnil|Hne].
  { revert Hrun. unfold main. rewrite Hnil. intros [= <- <-].
    exists []. rewrite app_nil_r. by destruct w0. }
  rewrite main_run in Hrun by done. rewrite main_run by done.
  set (file_list := file_list_of args) in *.
  destruct (parse_all relpath dump file_list false w0)
    as [[changed|e] wn] eqn:Hall; [|done].
  destruct (update_model_index MMPOSE_ROOT relpath glob_yml dump wn)
    as [r w1'] eqn:Hupd.
  apply update_model_index_result in Hupd as [(e & -> & _)|(imports & Himports & -> & ->)];
    [done|].
  injection Hrun as <- <-.
  assert (∀ fn, fn ∈ file_list →
            (fn ∉ outputs_of MMPOSE_ROOT file_list)
            ∧ (readme_path relpath fn ∉ outputs_of MMPOSE_ROOT file_list))
    as Hinputs.
  { intros fn Hfn. split; apply Hin; unfold inputs_of; apply elem_of_app.
    - by left.
    - right. apply list_elem_of_fmap. by exists fn. }
  assert (∀ p fn, p ∉ outputs_of MMPOSE_ROOT file_list → fn ∈ file_list →
            p ≠ yml_file_of fn ∧ p ≠ (model_index_file MMPOSE_ROOT)) as Hkept.
  { intros p fn Hp Hfn. split; intros ->; apply Hp; unfold outputs_of; apply elem_of_app.
    - left. apply list_elem_of_fmap. by exists fn.
    - right. by left. }
  destruct (parse_all_files file_list false w0 changed wn Hall) as [Hdocs Hother].
  { intros fn fn' Hfn Hfn'. destruct (Hinputs fn' Hfn') as [H1 H2].
    split; intros Heq.
    - by apply (proj1 (Hkept fn' fn H1 Hfn)).
    - by apply (proj1 (Hkept _ fn H2 Hfn)). }
  { done. }
  set (index_text := dump (ModelIndex imports)) in *.
  set (w1 := after_write wn (model_index_file MMPOSE_ROOT) index_text).
  destruct (parse_all_again file_list false w1) as (evs & Hagain & Hevs).
  { intros fn Hfn. destruct (Hdocs fn Hfn) as (obj & Hobj & Hyml).
    destruct (Hinputs fn Hfn) as [H1 H2].
    exists obj. split.
    - rewrite <- Hobj. apply parse_doc_ext; simpl.
      + rewrite lookup_insert_ne
          by (apply not_eq_sym; apply (proj2 (Hkept fn fn H1 Hfn))).
        apply Hother. intros (f & Heq & Hf)%list_elem_of_fmap.
        by apply (proj1 (Hkept _ f H1 Hf)).
      + rewrite lookup_insert_ne
          by (apply not_eq_sym; apply (proj2 (Hkept _ fn H2 Hfn))).
        apply Hother. intros (f & Heq & Hf)%list_elem_of_fmap.
        by apply (proj1 (Hkept _ f H2 Hf)).
    - simpl. rewrite lookup_insert_ne; [done|].
      intros Heq. apply Hindex. apply list_elem_of_fmap. by exists fn. }
  rewrite Hagain.
  set (w2 := {| files := files w1; history := history w1 ++ evs |}).
  assert (files w2 !! (model_index_file MMPOSE_ROOT) = Some index_text) as Hfile
    by apply lookup_insert_eq.
  destruct (text_changed_same w2 _ _ Hfile) as (Hsame & Hev & Hfiles).
  assert (update_model_index MMPOSE_ROOT relpath glob_yml dump w2
          = (Ok false, after_write w2 (model_index_file MMPOSE_ROOT) index_text)) as ->.
  { unfold update_model_index. unfold mbind at 1 2. unfold io_bind, lift.
    assert (dom (files w2) = {[(model_index_file MMPOSE_ROOT)]} ∪ dom (files wn)) as ->
      by apply dom_insert_L.
    rewrite (merge_sort_perm _ _ (Hglob _)), Himports, dump_yaml_result.
    fold index_text. by rewrite Hsame. }
  exists (evs ++ [written w2 (model_index_file MMPOSE_ROOT) index_text]). split.
  - f_equal. unfold after_write at 1.
    change (<[(model_index_file MMPOSE_ROOT):=index_text]> (files w2))
      with (files (after_write w2 (model_index_file MMPOSE_ROOT) index_text)).
    rewrite Hfiles. unfold w2 at 1 2. simpl. by rewrite <- app_assoc.
  - apply Forall_app. split; [done|]. by constructor.
Qed.

End SecondRun.

(** * Further properties of the code *)

(** ** Stripping *)

Lemma lstrip_by_first (p : ascii → bool) (s : string) :
  first_char_fails p (Str.lstrip_by p s).
Proof.
  induction s as [|x s IH]; simpl; [by intros c r|].
  destruct (p x) eqn:Hx; [done|]. intros c r [= <- <-]. done.
Qed.

Lemma rstrip_by_prefix (p : ascii → bool) (s : string) :
  ∃ dropped, s = Str.rstrip_by p s +:+ dropped.
Proof.
  induction s as [|x s [dropped IH]]; simpl; [by exists ""|].
  destruct (Str.rstrip_by p s) as [|y r] eqn:Hr.
  - destruct (p x); [by exists (String x s)|]. exists s. done.
  - exists dropped. simpl. by rewrite IH at 1.
Qed.

Lemma lstrip_by_suffix (p : ascii → bool) (s : string) :
  ∃ dropped, s = dropped +:+ Str.lstrip_by p s.
Proof.
  induction s as [|x s [dropped IH]]; simpl; [by exists ""|].
  destruct (p x); [|by exists ""].
  exists (String x dropped). simpl. by rewrite IH at 1.
Qed.

Lemma rstrip_by_last_fails (p : ascii → bool) (s : string) :
  last_char_fails p (Str.rstrip_by p s).
Proof.
  induction s as [|x s IH]; simpl.
  - intros [|y a] c; discriminate.
  - destruct (Str.rstrip_by p s) as [|y r] eqn:Hr.
    + destruct (p x) eqn:Hx.
      * intros [|z a] c; discriminate.
      * intros [|z a] c; simpl; [by intros [= <-]|].
        intros [= _ Ha]. by destruct a.
    + intros [|z a] c; simpl; [discriminate|].
      intros [= _ Ha]. by apply (IH a c).
Qed.

Lemma strip_by_ends (p : ascii → bool) (s : string) :
  first_char_fails p (Str.strip_by p s) ∧ last_char_fails p (Str.strip_by p s).
Proof.
  unfold Str.strip_by. split; [|apply rstrip_by_last_fails].
  intros c r Hs.
  destruct (rstrip_by_prefix p (Str.lstrip_by p s)) as [dropped Hd].
  rewrite Hs in Hd. simpl in Hd. by apply (lstrip_by_first p s c (r +:+ dropped)).
Qed.

Lemma strip_by_occurs (p : ascii → bool) (s : string) :
  ∃ pre post, s = pre +:+ Str.strip_by p s +:+ post.
Proof.
  unfold Str.strip_by.
  destruct (lstrip_by_suffix p s) as [pre Hpre].
  destruct (rstrip_by_prefix p (Str.lstrip_by p s)) as [post Hpost].
  exists pre, post. by rewrite <- Hpost.
Qed.

(** ** Metric names *)

Lemma rewrite_key_no_markup (key : string) :
  ∀ skipping u, rewrite_key skipping key = Ok u → all_chars (λ c, negb (markup c)) u = true.
Proof.
  induction key as [|c key IH]; intros skipping u; simpl.
  - destruct skipping; [done|]. by intros [= <-].
  - destruct skipping.
    + destruct (Ascii.eqb c ">"); apply IH.
    + destruct (Ascii.eqb c "<") eqn:Hlt; [apply IH|].
      destruct (Ascii.eqb c "*" || Ascii.eqb c "_") eqn:Hem;
        destruct (rewrite_key false key) as [v|] eqn:Hv; try done;
        intros [= <-]; cbn [all_chars]; rewrite (IH false v Hv), andb_true_r.
      * done.
      * unfold markup. rewrite Hlt. cbn [orb]. by rewrite Hem.
Qed.

Lemma all_chars_app (p : ascii → bool) (a b : string) :
  all_chars p (a +:+ b) = all_chars p a && all_chars p b.
Proof. induction a as [|c a IH]; simpl; [done | by rewrite IH, andb_assoc]. Qed.

Lemma all_chars_strip_by (p q : ascii → bool) (s : string) :
  all_chars p s = true → all_chars p (Str.strip_by q s) = true.
Proof.
  destruct (strip_by_occurs q s) as (pre & post & Hs). intros Hall.
  rewrite Hs, !all_chars_app in Hall.
  by apply andb_true_iff in Hall as [_ [? _]%andb_true_iff].
Qed.

Section MetricNames.
Context `{PyFloat}.

(** Property X1.  For every vocabulary term other than ap and ar, the
    metric name computed from a header has no white space at either end
    and holds none of the characters [<], [*] and [_]: bracketed spans are
    left out and emphasis markers become spaces before the name is
    trimmed. *)
Theorem used_metric_clean (metric key name : string) :
  metric ∉ ["ap"; "ar"] →
  used_metric_of metric key = Ok name →
  first_char_fails Str.is_space name
  ∧ last_char_fails Str.is_space name
  ∧ all_chars (λ c, negb (markup c)) name = true.
Proof.
  intros Hmetric. unfold used_metric_of.
  destruct (rewrite_key false key) as [u|] eqn:Hu; [|done]. simpl.
  rewrite bool_decide_eq_false_2 by done. intros [= <-].
  destruct (strip_by_ends Str.is_space u) as [Hfirst Hlast].
  split_and!; [done|done|].
  apply all_chars_strip_by. by apply (rewrite_key_no_markup key false).
Qed.

End MetricNames.

(** ** Links and anchors *)

Lemma find_minimal (sub a c : string) (k : nat) :
  Str.find sub (a +:+ sub +:+ c) = Some k → k ≤ String.length a.
Proof.
  revert k. induction a as [|x a IH]; intros k.
  - simpl. assert (Str.starts_with sub (sub +:+ c) = true) as Hs
      by (apply starts_with_spec; eauto).
    destruct (sub +:+ c); simpl; rewrite Hs; intros [= <-]; lia.
  - simpl. destruct (Str.starts_with sub _); [intros [= <-]; lia|].
    destruct (Str.find sub (a +:+ sub +:+ c)) as [k'|] eqn:Hf; [|done].
    intros [= <-]. specialize (IH k' eq_refl). lia.
Qed.

Lemma find_first (sub s : string) (k : nat) :
  sub ≠ "" → Str.find sub s = Some k →
  ∃ pre post, s = pre +:+ sub +:+ post ∧ String.length pre = k
              ∧ Str.find sub pre = None.
Proof.
  intros Hsub Hf. destruct (find_occurs sub s k Hf) as (pre & post & Hs & Hlen).
  exists pre, post. split_and!; [done..|].
  destruct (Str.find sub pre) as [j|] eqn:Hpre; [|done]. exfalso.
  destruct (find_occurs sub pre j Hpre) as (a & b & Ha & Hj).
  rewrite Hs, Ha, !str_app_assoc in Hf. apply find_minimal in Hf.
  rewrite Ha, !str_app_length in Hlen.
  destruct sub; [done|]. simpl in Hlen. lia.
Qed.

Lemma find_char_none (c : ascii) (s : string) :
  Str.find (String c "") s = None → Str.mem c s = false.
Proof.
  induction s as [|x s IH]; [done|]. simpl.
  destruct (Ascii.eqb c x); [done|]. simpl.
  destruct (Str.find (String c "") s); [done|]. intros _. by apply IH.
Qed.

Lemma rfind_occurs (sub s : string) (k : nat) :
  Str.rfind sub s = Some k →
  ∃ pre post, s = pre +:+ sub +:+ post ∧ String.length pre = k.
Proof.
  revert k. induction s as [|x s IH]; intros k.
  - simpl. destruct (Str.starts_with sub "") eqn:Hs; [|done]. intros [= <-].
    apply starts_with_spec in Hs as [post Hs]. by exists "", post.
  - change (Str.rfind sub (String x s))
      with (match Str.rfind sub s with
            | Some k => Some (S k)
            | None => if Str.starts_with sub (String x s) then Some 0 else None
            end).
    destruct (Str.rfind sub s) as [k'|].
    + intros [= <-]. destruct (IH k' eq_refl) as (pre & post & -> & Hlen).
      exists (String x pre), post. simpl. by rewrite Hlen.
    + destruct (Str.starts_with sub (String x s)) eqn:Hs; [|done]. intros [= <-].
      apply starts_with_spec in Hs as [post Hs]. by exists "", post.
Qed.

Lemma split_no_separator (c : ascii) (s : string) :
  Forall (λ w, Str.mem c w = false) (Str.split c s).
Proof.
  induction s as [|x s IH]; simpl; [by repeat constructor|].
  destruct (Ascii.eqb x c) eqn:Hx; [constructor; [done|exact IH]|].
  assert (Ascii.eqb c x = false) as Hc by (by rewrite Ascii.eqb_sym).
  destruct (Str.split c s) as [|w ws].
  - constructor; [|done]. simpl. by rewrite Hc.
  - apply Forall_cons in IH as [Hw Hws]. constructor; [|done].
    simpl. by rewrite Hc.
Qed.

(** Property X2.  When a cell gives a link target, the cell is a text
    without [](], then [](], the target, [)] and the rest, and the target
    holds no [)]: the target runs from the first [](] of the cell to the
    first [)] after it. *)
Theorem link_target_sound (cell target : string) :
  link_target cell = Ok target →
  ∃ pre post,
    cell = pre +:+ "](" +:+ target +:+ ")" +:+ post
    ∧ Str.find "](" pre = None
    ∧ Str.mem ")" target = false.
Proof.
  unfold link_target, Str.index_from, Str.find_from.
  rewrite decide_True by lia. change (Str.drop 0 cell) with cell.
  destruct (Str.find "](" cell) as [k|] eqn:Hk; [|done]. simpl.
  destruct (find_first "](" cell k) as (pre & rest & Hcell & Hlen & Hpre); [done..|].
  case_decide as Hbound; [|done].
  assert (Str.drop (k + 2) cell = rest) as Hrest.
  { rewrite Hcell, <- Hlen, drop_app_plus. done. }
  rewrite Hrest.
  destruct (Str.find ")" rest) as [r|] eqn:Hr; [|done]. simpl.
  destruct (find_first ")" rest r) as (t & post & Hrest' & Hlen' & Ht); [done..|].
  intros [= <-]. exists pre, post. unfold Str.slice.
  replace (k + 2 + r - (k + 2)) with (String.length t) by lia.
  rewrite Hrest, Hrest', take_app_length.
  split_and!; [by rewrite Hcell, Hrest'|done|by apply find_char_none].
Qed.

Lemma anchor_in_sound (w url name : string) :
  anchor_in w = Some (url, name) →
  ∃ pre post,
    w = pre +:+ anchor_open +:+ url +:+ anchor_mid +:+ name +:+ anchor_close +:+ post.
Proof.
  unfold anchor_in. intros Ha.
  destruct (Str.find anchor_open w) as [p|] eqn:Hp; [|done].
  cbn [mbind option_bind] in Ha. cbv zeta in Ha.
  destruct (find_occurs _ _ _ Hp) as (pre & rest & Hw & Hlen).
  assert (Str.drop (p + String.length anchor_open) w = rest) as Hrest.
  { rewrite Hw, <- Hlen, drop_app_plus. apply (drop_app_length anchor_open). }
  rewrite Hrest in Ha.
  destruct (Str.rfind anchor_close rest) as [e2|] eqn:He2; [|done].
  cbn [mbind option_bind] in Ha.
  destruct (rfind_occurs _ _ _ He2) as (inner & post & Hrest' & Hlen2).
  assert (Str.take e2 rest = inner) as Hinner
    by (rewrite Hrest', <- Hlen2; apply take_app_length).
  rewrite Hinner in Ha.
  destruct (Str.rfind anchor_mid inner) as [e1|] eqn:He1; [|done].
  cbn [mbind option_bind] in Ha.
  destruct (rfind_occurs _ _ _ He1) as (u & n & Hin & Hlen1).
  assert (Str.take e1 rest = u) as Hu.
  { rewrite Hrest', Hin, !str_app_assoc, <- Hlen1. apply take_app_length. }
  assert (Str.slice (e1 + String.length anchor_mid) e2 rest = n) as Hn.
  { unfold Str.slice. rewrite Hrest', Hin, !str_app_assoc, <- Hlen1, drop_app_plus.
    rewrite (drop_app_length anchor_mid).
    replace (e2 - (String.length u + String.length anchor_mid)) with (String.length n).
    - apply take_app_length.
    - rewrite <- Hlen2, Hin, !str_app_length. lia. }
  rewrite Hu, Hn in Ha. injection Ha as <- <-. exists pre, post.
  by rewrite Hw, Hrest', Hin, !str_app_assoc.
Qed.

(** Property X3.  When the anchor pattern matches a line, the URL and the
    name it returns lie in one segment of the line between line feeds, as
    the opening tag, the URL, the quote with [>], the name and the closing
    tag, in this order; neither the URL nor the name holds a line feed. *)
Theorem find_anchor_sound (line url name : string) :
  find_anchor line = Ok (url, name) →
  ∃ segment pre post,
    segment ∈ Str.split LF line
    ∧ segment
      = pre +:+ anchor_open +:+ url +:+ anchor_mid +:+ name +:+ anchor_close +:+ post
    ∧ Str.mem LF url = false ∧ Str.mem LF name = false.
Proof.
  unfold find_anchor. pose proof (split_no_separator LF line) as Hsegments.
  induction (Str.split LF line) as [|w ws IH]; [done|]. simpl.
  apply Forall_cons in Hsegments as [Hw Hws].
  destruct (anchor_in w) as [[u n]|] eqn:Ha.
  - intros [= <- <-]. destruct (anchor_in_sound w u n Ha) as (pre & post & Hsegment).
    exists w, pre, post. split_and!; [by left|done|..];
      rewrite Hsegment, !mem_app in Hw;
      repeat (apply orb_false_iff in Hw as [? Hw]); done.
  - intros Hrest. destruct (IH Hws Hrest) as (segment & pre & post & Hin & Hs).
    exists segment, pre, post. split; [by right|done].
Qed.

Section ScanInvariants.
Context `{PyFloat}.
Variables (collection_name task : string).

Lemma parse_row_Some (hdr : table_header) (dataset : option string)
    (row : string) (m : model) :
  parse_row hdr collection_name task dataset row = Ok (Some m) →
  ∃ cell target training_data metrics,
    middle (Str.split "|" row) !! config_idx hdr = Some cell
    ∧ link_target cell = Ok target
    ∧ dataset = Some training_data
    ∧ model_Config m = Str.strip_chars "./" target
    ∧ model_Name m = model_name_of (model_Config m)
    ∧ model_InCollection m = collection_name
    ∧ meta_TrainingData (model_Metadata m) = training_data
    ∧ model_Results m
      = [ {| res_Task := task; res_Dataset := training_data; res_Metrics := metrics |} ].
Proof.
  unfold parse_row. intros Hrow.
  apply bind_Ok in Hrow as (cell & Hcell & Hrow).
  destruct (negb (Str.contains "](" cell)); [done|].
  apply bind_Ok in Hrow as (target & Htarget & Hrow).
  apply bind_Ok in Hrow as (ckpt_cell & _ & Hrow).
  apply bind_Ok in Hrow as (ckpt & _ & Hrow).
  apply bind_Ok in Hrow as (training_data & Hdata & Hrow).
  apply bind_Ok in Hrow as (flops & _ & Hrow).
  apply bind_Ok in Hrow as (params & _ & Hrow).
  apply bind_Ok in Hrow as (metrics & _ & Hrow).
  exists cell, target, training_data, metrics.
  destruct (middle (Str.split "|" row) !! config_idx hdr) as [cell'|]; [|done].
  destruct dataset as [d|]; [|done]. simplify_eq/=. done.
Qed.

Lemma table_rows_invariant (P : locals → Prop) (hdr : table_header) (rows : list string) :
  (∀ st row m, P st →
     parse_row hdr collection_name task (loc_dataset st) row = Ok (Some m) →
     P (add_model st m)) →
  ∀ j st j' st',
    P st → table_rows hdr collection_name task rows j st = Ok (j', st') → P st'.
Proof.
  intros Hadd. induction rows as [|row rows IH]; intros j st j' st' Hst; simpl.
  - by intros [= <- <-].
  - intros Hrows. apply bind_Ok in Hrows as (c & _ & Hrows).
    destruct (Ascii.eqb c "|"); [|by injection Hrows as <- <-].
    apply bind_Ok in Hrows as ([m|] & Hrow & Hrows).
    + apply (IH (S j) (add_model st m) j' st'); [by eapply Hadd|done].
    + by apply (IH (S j) st j' st').
Qed.

Lemma annotation_models (lines : list string) (i : nat) (st st' : locals) :
  annotation lines i st = Ok st' → loc_models st' = loc_models st.
Proof.
  unfold annotation. intros Hann.
  apply bind_Ok in Hann as (line & _ & Hann).
  apply bind_Ok in Hann as (anchor_line & _ & Hann).
  apply bind_Ok in Hann as ([url name] & _ & [= <-]). done.
Qed.

Lemma scan_invariant (P : locals → Prop) (lines : list string) :
  (∀ i st i' st', i < length lines → P st →
     step collection_name task lines i st = Ok (i', st') → P st') →
  ∀ fuel i st st',
    P st → scan fuel collection_name task lines i st = Some (Ok st') → P st'.
Proof.
  intros Hstep. induction fuel as [|fuel IH]; intros i st st' Hst; [done|].
  simpl. case_decide as Hi; [|by intros [= <-]].
  destruct (step collection_name task lines i st) as [[i1 st1]|e] eqn:Hs; [|done].
  apply IH. by eapply Hstep.
Qed.

Lemma parse_lines_invariant (P : locals → Prop) (lines : list string) (st : locals) :
  P init_locals →
  (∀ i st i' st', i < length lines → P st →
     step collection_name task lines i st = Ok (i', st') → P st') →
  parse_lines collection_name task lines = Ok st → P st.
Proof.
  intros Hinit Hstep Hparse.
  apply (scan_invariant P lines Hstep (S (length lines)) 0 init_locals); [done|].
  by rewrite parse_lines_scan, Hparse.
Qed.

Lemma step_models (P : model → Prop) (lines : list string)
    (i : nat) (st : locals) (i' : nat) (st' : locals) :
  (∀ hdr dataset row m,
     parse_row hdr collection_name task dataset row = Ok (Some m) → P m) →
  Forall P (loc_models st) →
  step collection_name task lines i st = Ok (i', st') →
  Forall P (loc_models st').
Proof.
  intros Hrow Hst. unfold step. intros Hstep.
  apply bind_Ok in Hstep as (line & _ & Hstep).
  destruct (Str.eqb (Str.take 2 line) "<!").
  - apply bind_Ok in Hstep as (st1 & Hann & [= <- <-]).
    by rewrite (annotation_models _ _ _ _ Hann).
  - apply bind_Ok in Hstep as (c & _ & Hstep).
    destruct (Ascii.eqb c "|" && separator_follows lines i).
    + apply bind_Ok in Hstep as (hdr & _ & Hstep).
      eapply (table_rows_invariant (λ s, Forall P (loc_models s)));
        [|exact Hst|exact Hstep].
      intros st1 row m Hst1 Hm. simpl. apply Forall_app. split; [done|].
      constructor; [|done]. by eapply Hrow.
    + by injection Hstep as <- <-.
Qed.

(** Property X4.  Every model record of a parsed document is in the
    collection of the document and is named after its configuration path;
    it has exactly one result, whose task is that of the document and
    whose data set is the training data of the record; and its
    configuration path neither starts nor ends with a dot or a slash. *)
Theorem parse_lines_records (lines : list string) (st : locals) :
  parse_lines collection_name task lines = Ok st →
  Forall (record_of_row collection_name task) (loc_models st).
Proof.
  apply (parse_lines_invariant (λ st, Forall (record_of_row collection_name task) (loc_models st)));
    [by constructor|].
  intros i st0 i' st' _. apply step_models.
  intros hdr dataset row m Hm.
  apply parse_row_Some in Hm
    as (cell & target & d & metrics & _ & _ & _ & Hconfig & Hname & Hcoll & Hdata & Hres).
  unfold record_of_row. split_and!; [done|done| | |].
  - exists metrics. by rewrite Hres, Hdata.
  - rewrite Hconfig. apply strip_by_ends.
  - rewrite Hconfig. apply strip_by_ends.
Qed.

(** Property X5.  In what parsing a document returns, the Paper list is
    at least as long as the Architecture list: every reference block adds
    a URL, only some add a name, and tables add neither. *)
Theorem architecture_has_paper (lines : list string) (st : locals) :
  parse_lines collection_name task lines = Ok st →
  length (loc_Architecture st) ≤ length (loc_Paper st).
Proof.
  apply (parse_lines_invariant (λ st, length (loc_Architecture st) ≤ length (loc_Paper st)));
    [done|].
  intros i st0 i' st' _ Hst0. unfold step. intros Hstep.
  apply bind_Ok in Hstep as (line & _ & Hstep).
  destruct (Str.eqb (Str.take 2 line) "<!").
  - apply bind_Ok in Hstep as (st1 & Hann & [= <- <-]).
    unfold annotation in Hann.
    apply bind_Ok in Hann as (line' & _ & Hann).
    apply bind_Ok in Hann as (anchor_line & _ & Hann).
    apply bind_Ok in Hann as ([url name] & _ & [= <-]). simpl.
    rewrite length_app. simpl. destruct (_ || _); [rewrite length_app; simpl|]; lia.
  - apply bind_Ok in Hstep as (c & _ & Hstep).
    destruct (Ascii.eqb c "|" && separator_follows lines i).
    + apply bind_Ok in Hstep as (hdr & _ & Hstep).
      apply table_rows_result in Hstep as (_ & _ & -> & ->). done.
    + by injection Hstep as <- <-.
Qed.

(** Property X6.  If no line of a document starts with [<!] and parsing
    succeeds, the result is empty: no architecture, no paper and no model
    record.  A table contributes records only after a DATASET block. *)
Theorem no_block_no_record (lines : list string) (st : locals) :
  Forall (λ line, Str.eqb (Str.take 2 line) "<!" = false) lines →
  parse_lines collection_name task lines = Ok st →
  st = init_locals.
Proof.
  intros Hlines.
  apply (parse_lines_invariant (λ st, st = init_locals)); [done|].
  intros i st0 i' st' _ ->. unfold step. intros Hstep.
  apply bind_Ok in Hstep as (line & Hline & Hstep).
  destruct (lines !! i) as [line'|] eqn:Hl; [|done]. injection Hline as ->.
  rewrite (proj1 (Forall_lookup _ _) Hlines i line Hl) in Hstep.
  apply bind_Ok in Hstep as (c & _ & Hstep).
  destruct (Ascii.eqb c "|" && separator_follows lines i).
  - apply bind_Ok in Hstep as (hdr & _ & Hstep).
    eapply (table_rows_invariant (λ s, s = init_locals));
      [|reflexivity|exact Hstep].
    intros st1 row m -> Hm.
    by apply parse_row_Some in Hm as (? & ? & ? & ? & _ & _ & [=] & _).
  - by injection Hstep as <- <-.
Qed.

(** Property X7.  The loop over the lines ends: with any fuel greater than
    the number of lines the scan returns, and what it returns is the result
    of [parse_lines], whatever the fuel. *)
Theorem scan_terminates (lines : list string) (fuel : nat) :
  length lines < fuel →
  scan fuel collection_name task lines 0 init_locals
  = Some (parse_lines collection_name task lines).
Proof.
  intros Hfuel. rewrite <- parse_lines_scan. apply scan_fuel; lia.
Qed.

End ScanInvariants.

(** ** Text files *)

Lemma is_line_cons (c : ascii) (l : string) :
  Ascii.eqb c LF = false → is_line l → is_line (String c l).
Proof.
  intros Hc (body & Hbody & Hl). exists (String c body). split.
  - simpl. by rewrite (Ascii.eqb_sym LF c), Hc.
  - destruct Hl as [->| [-> _]]; [by left|by right].
Qed.

(** Property X8.  The lines [readlines] returns, joined, are the text
    that was read; every line is not empty and holds a line feed at most
    as its last character.  So [lines[i][0]] never fails in the scan. *)
Theorem readlines_lines (s : string) :
  String.concat "" (readlines s) = s ∧ Forall is_line (readlines s).
Proof.
  induction s as [|c s [IHc IHl]]; [by split|]. simpl.
  destruct (Ascii.eqb c LF) eqn:Hc.
  - apply Ascii.eqb_eq in Hc as ->. split.
    + simpl. destruct (readlines s); simpl in *; by rewrite IHc.
    + constructor; [|done]. exists "". split; [done|by left].
  - destruct (readlines s) as [|l ls].
    + simpl in IHc. subst s. split; [done|].
      constructor; [|done]. exists (String c ""). split; [|by right].
      simpl. by rewrite (Ascii.eqb_sym LF c), Hc.
    + apply Forall_cons in IHl as [Hl Hls]. split.
      * rewrite <- IHc. simpl. by destruct ls.
      * constructor; [|done]. by apply is_line_cons.
Qed.

Lemma universal_newlines_step (n : nat) :
  ∀ s, String.length s ≤ n →
    Str.mem CR (universal_newlines s) = false
    ∧ (Str.mem CR s = false → universal_newlines s = s).
Proof.
  induction n as [|n IH]; intros [|c s] Hn; simpl in *; try done; [lia|].
  destruct (Ascii.eqb c CR) eqn:Hc.
  - apply Ascii.eqb_eq in Hc as ->. split; [|done].
    destruct s as [|c' s]; [done|].
    destruct (Ascii.eqb c' LF); simpl.
    + apply IH. simpl in Hn. lia.
    + apply (IH (String c' s)). simpl in *. lia.
  - destruct (IH s ltac:(lia)) as [Hfree Hsame]. split.
    + simpl. by rewrite (Ascii.eqb_sym CR c), Hc.
    + rewrite (Ascii.eqb_sym CR c), Hc. simpl. intros Hs. by rewrite Hsame.
Qed.

(** Property X9.  A text read in text mode holds no carriage return, and
    reading it in text mode once more changes nothing. *)
Theorem universal_newlines_idempotent (s : string) :
  Str.mem CR (universal_newlines s) = false
  ∧ universal_newlines (universal_newlines s) = universal_newlines s.
Proof.
  destruct (universal_newlines_step (String.length s) s) as [Hfree _]; [done|].
  split; [done|].
  by apply (universal_newlines_step (String.length (universal_newlines s))).
Qed.

(** ** Cells and path components *)

Lemma split_plain (c : ascii) (s : string) :
  Str.mem c s = false → Str.split c s = [s].
Proof.
  induction s as [|x s IH]; [done|]. simpl.
  rewrite (Ascii.eqb_sym c x). destruct (Ascii.eqb x c); [done|]. simpl.
  intros Hs. by rewrite IH.
Qed.

Lemma split_app (c : ascii) (a b : string) :
  Str.mem c a = false →
  Str.split c (a +:+ String c b) = a :: Str.split c b.
Proof.
  induction a as [|x a IH]; simpl.
  - intros _. by rewrite Ascii.eqb_refl.
  - rewrite (Ascii.eqb_sym c x). destruct (Ascii.eqb x c); [done|]. simpl.
    intros Ha. by rewrite IH.
Qed.

Lemma split_concat (c : ascii) (parts : list string) :
  parts ≠ [] →
  Forall (λ p, Str.mem c p = false) parts →
  Str.split c (String.concat (String c "") parts) = parts.
Proof.
  intros Hne Hparts. induction Hparts as [|p parts Hp Hparts IH]; [done|].
  destruct parts as [|q parts].
  - simpl. by apply split_plain.
  - change (String.concat (String c "") (p :: q :: parts))
      with (p +:+ String c (String.concat (String c "") (q :: parts))).
    rewrite split_app by done. by rewrite IH.
Qed.

Lemma middle_cells {A : Type} (x y : A) (l : list A) :
  middle (x :: l ++ [y]) = l.
Proof.
  unfold middle. simpl. induction l as [|a l IH]; [done|].
  simpl. rewrite IH. by destruct l.
Qed.

(** Property X10.  The cells of a row: for a row made of a lead, cells and
    a tail with a [|] between any two of them, none of them holding a [|],
    [split('|')[1:-1]] returns exactly the cells. *)
Theorem row_cells (cells : list string) (lead tail : string) :
  Forall (λ cell, Str.mem "|" cell = false) cells →
  Str.mem "|" lead = false → Str.mem "|" tail = false →
  middle (Str.split "|" (String.concat "|" (lead :: cells ++ [tail]))) = cells.
Proof.
  intros Hcells Hlead Htail.
  rewrite split_concat.
  - apply middle_cells.
  - done.
  - constructor; [done|]. apply Forall_app. split; [done|by constructor].
Qed.

Lemma take_snoc3 {A : Type} (l : list A) (a b c : A) :
  l ≠ [] → take (Nat.max 1 (length (l ++ [a; b; c]) - 3)) (l ++ [a; b; c]) = l.
Proof.
  intros Hl. rewrite length_app. simpl.
  replace (Nat.max 1 (length l + 3 - 3)) with (length l)
    by (destruct l; [done|simpl; lia]).
  apply list.take_app_length.
Qed.

(** ** Paths of a run *)

Lemma path_join_dir (a b : string) (c : ascii) :
  c ≠ "/"%char → path_join (a +:+ String c "") b = (a +:+ String c "") +:+ "/" +:+ b.
Proof.
  intros Hc. unfold path_join.
  assert (Str.eqb (a +:+ String c "") "" = false) as ->.
  { apply bool_decide_eq_false. by destruct a. }
  assert (Str.drop (String.length (a +:+ String c "") - 1) (a +:+ String c "")
          = String c "") as ->.
  { rewrite str_app_length. simpl.
    replace (String.length a + 1 - 1) with (String.length a + 0) by lia.
    by rewrite drop_app_plus. }
  assert (Str.eqb (String c "") "/" = false) as ->.
  { apply bool_decide_eq_false. congruence. }
  done.
Qed.

Lemma concat_last_char (dirs : list string) (d : string) :
  d ≠ "" → Str.mem "/" d = false →
  ∃ a c, String.concat "/" (dirs ++ [d]) = a +:+ String c "" ∧ c ≠ "/"%char.
Proof.
  intros Hd Hslash. destruct (last_char d Hd) as (a & c & ->).
  rewrite mem_app in Hslash. apply orb_false_iff in Hslash as [_ Hc].
  simpl in Hc. rewrite orb_false_r in Hc.
  assert (c ≠ "/"%char) as Hne.
  { intros ->. by rewrite Ascii.eqb_refl in Hc. }
  rewrite concat_snoc. destruct dirs as [|x dirs].
  - by exists a, c.
  - exists (String.concat "/" (x :: dirs) +:+ "/" +:+ a), c.
    by rewrite !str_app_assoc.
Qed.

(** Property X11.  For a document whose path relative to the root has at
    least four components, the summary document read for the task name is
    README.md in the directory three levels above the document. *)
Theorem readme_three_levels_up (relpath : string → string) (md_file : string)
    (dirs : list string) (task_dir d1 d2 file : string) :
  relpath md_file = String.concat "/" (dirs ++ [task_dir; d1; d2; file]) →
  Forall (λ p, Str.mem "/" p = false) (dirs ++ [task_dir; d1; d2; file]) →
  task_dir ≠ "" →
  readme_path relpath md_file
  = String.concat "/" (dirs ++ [task_dir; "README.md"]).
Proof.
  intros Hrel Hparts Htask. unfold readme_path, rsplit3_head. rewrite Hrel.
  rewrite split_concat by (done || by destruct dirs).
  replace (dirs ++ [task_dir; d1; d2; file])
    with ((dirs ++ [task_dir]) ++ [d1; d2; file]) by (by rewrite <- app_assoc).
  rewrite take_snoc3 by (by destruct dirs).
  assert (Str.mem "/" task_dir = false) as Hslash.
  { apply Forall_app in Hparts as [_ Hparts]. by apply Forall_cons in Hparts as [? _]. }
  destruct (concat_last_char dirs task_dir Htask Hslash) as (a & c & Ha & Hc).
  rewrite Ha, (path_join_dir a "README.md" c Hc), <- Ha.
  replace (dirs ++ [task_dir; "README.md"])
    with ((dirs ++ [task_dir]) ++ ["README.md"]) by (by rewrite <- app_assoc).
  rewrite (concat_snoc "/" (dirs ++ [task_dir])).
  by destruct dirs.
Qed.

(** Property X12.  The path of the descriptor is the path of the document
    with its last two characters replaced by yml, whatever these two
    characters are: the extension of the document is not looked at. *)
Theorem yml_file_of_suffix (stem : string) (a b : ascii) :
  yml_file_of (stem +:+ String a (String b "")) = stem +:+ "yml".
Proof.
  unfold yml_file_of. rewrite str_app_length. simpl.
  replace (String.length stem + 2 - 2) with (String.length stem) by lia.
  by rewrite take_app_length.
Qed.

Lemma basename_file (dir file : string) :
  Str.mem "/" file = false → basename (dir +:+ "/" +:+ file) = file.
Proof.
  intros Hfile. unfold basename.
  assert (Str.rfind "/" (dir +:+ "/" +:+ file) = Some (String.length dir)) as ->
    by (by apply (rfind_char_last "/")).
  replace (S (String.length dir)) with (String.length dir + 1) by lia.
  by rewrite drop_app_plus.
Qed.

Lemma splitext_root_file (file ext : string) :
  Str.mem "/" file = false → all_dots file = false →
  Str.mem "/" ext = false → Str.mem "." ext = false →
  splitext_root (file +:+ "." +:+ ext) = file.
Proof.
  intros Hfile Hnamed Hslash Hdot. unfold splitext_root.
  assert (Str.rfind "." (file +:+ "." +:+ ext) = Some (String.length file)) as ->
    by (by apply (rfind_char_last ".")).
  assert (Str.rfind "/" (file +:+ "." +:+ ext) = None) as ->.
  { apply (rfind_char_absent "/"). rewrite mem_app, Hfile. simpl. by rewrite Hslash. }
  cbn [from_option]. rewrite bool_decide_eq_true_2 by lia.
  unfold Str.slice. change (Str.drop 0 ?s) with s.
  rewrite Nat.sub_0_r, !take_app_length, Hnamed. done.
Qed.

(** ** Headers, rows and metrics *)

Lemma index_of_Some (x : string) (l : list string) :
  ∀ k, index_of x l = Some k →
    l !! k = Some x ∧ (∀ k' y, k' < k → l !! k' = Some y → y ≠ x).
Proof.
  induction l as [|y l IH]; intros k; [done|]. simpl.
  unfold Str.eqb. case_bool_decide as Hy.
  - intros [= <-]. split; [by rewrite Hy|]. intros k' z Hk'. lia.
  - destruct (index_of x l) as [n|]; [|done]. intros [= <-].
    destruct (IH n eq_refl) as [Hn Hfirst]. split; [done|].
    intros [|k'] z Hk'; simpl; [by intros [= <-]|].
    apply Hfirst. lia.
Qed.

Section HeaderFacts.
Context `{PyFloat}.

Lemma collate_from_Ok (keys : list string) :
  ∀ idx used_metrics metric_idx r,
    collate_from idx keys used_metrics metric_idx = Ok r →
    Forall (λ key, is_ok (metric_of_key key) = true) keys.
Proof.
  induction keys as [|key keys IH]; intros idx un mi r; [by constructor|]. simpl.
  destruct (metric_of_key key) as [[name|]|e] eqn:Hm; [| |done]; simpl;
    intros Hrest; apply IH in Hrest; constructor; by rewrite ?Hm.
Qed.

Lemma collate_from_Raise (keys : list string) :
  ∀ idx used_metrics metric_idx e,
    collate_from idx keys used_metrics metric_idx = Raise e →
    ∃ earlier key later,
      keys = earlier ++ key :: later
      ∧ Forall (λ key, is_ok (metric_of_key key) = true) earlier
      ∧ metric_of_key key = Raise e.
Proof.
  induction keys as [|key keys IH]; intros idx un mi e; [done|]. simpl.
  destruct (metric_of_key key) as [[name|]|e'] eqn:Hm; simpl.
  - intros (earlier & k & later & -> & Hearlier & Hk)%IH.
    exists (key :: earlier), k, later. split_and!; [done| |done].
    constructor; [by rewrite Hm|done].
  - intros (earlier & k & later & -> & Hearlier & Hk)%IH.
    exists (key :: earlier), k, later. split_and!; [done| |done].
    constructor; [by rewrite Hm|done].
  - intros [= <-]. by exists [], key, keys.
Qed.

(** Property X13.  When the metric normalizer raises, the exception is
    that of the first header on which the computation of a name fails: the
    headers before it raise nothing, this one is none of Arch, Input Size,
    ckpt and log, and it is the name for its first matching vocabulary
    term that fails. *)
Theorem collate_metrics_raises (keys : list string) (e : exn) :
  collate_metrics keys = Raise e →
  ∃ earlier key later,
    keys = earlier ++ key :: later
    ∧ Forall (λ key, is_ok (metric_of_key key) = true) earlier
    ∧ (key ∉ non_metric_columns)
    ∧ ∃ metric, first_match key = Some metric ∧ used_metric_of metric key = Raise e.
Proof.
  unfold collate_metrics. intros Hraise.
  apply collate_from_Raise in Hraise as (earlier & key & later & Hkeys & Hearlier & Hkey).
  exists earlier, key, later. unfold metric_of_key in Hkey.
  case_bool_decide as Hcol; [done|].
  destruct (first_match key) as [metric|]; [|done].
  split_and!; [done..|].
  exists metric. split; [done|].
  destruct (used_metric_of metric key) as [name|e']; simpl in Hkey; congruence.
Qed.

(** Property X14.  When a header row is read, the cell at the Arch index
    is Arch and the cell at the ckpt index is ckpt; the FLOPs and Params
    indices, when present, point at cells FLOPs and Params; there are as
    many metric names as metric indices; and every metric index is that of
    a cell of the row other than the Arch and the ckpt cell. *)
Theorem parse_header_columns (line : string) (hdr : table_header) :
  parse_header line = Ok hdr →
  let cols := middle (Str.strip <$> Str.split "|" line) in
  cols !! config_idx hdr = Some "Arch"
  ∧ cols !! ckpt_idx hdr = Some "ckpt"
  ∧ (∀ k, flops_idx hdr = Some k → cols !! k = Some "FLOPs")
  ∧ (∀ k, params_idx hdr = Some k → cols !! k = Some "Params")
  ∧ length (metric_name_list hdr) = length (metric_idx_list hdr)
  ∧ Forall (λ i, i < length cols ∧ i ≠ config_idx hdr ∧ i ≠ ckpt_idx hdr)
      (metric_idx_list hdr).
Proof.
  intros Hhdr cols. unfold parse_header in Hhdr. fold cols in Hhdr.
  apply bind_Ok in Hhdr as (config & Hconfig & Hhdr).
  apply bind_Ok in Hhdr as (ckpt & Hckpt & Hhdr).
  apply bind_Ok in Hhdr as ([names idxs] & Hcollate & [= <-]). simpl.
  destruct (index_of "Arch" cols) as [c|] eqn:Hc; [|done]. injection Hconfig as ->.
  destruct (index_of "ckpt" cols) as [k|] eqn:Hk; [|done]. injection Hckpt as ->.
  apply index_of_Some in Hc as [Hc _]. apply index_of_Some in Hk as [Hk _].
  split_and!; [done|done|by intros n [? _]%index_of_Some
              |by intros n [? _]%index_of_Some|..].
  - unfold collate_metrics in Hcollate.
    destruct (collate_from_spec cols 0 [] [] (collate_from_Ok _ _ _ _ _ Hcollate))
      as (names' & idxs' & Heq & Hlen & _).
    rewrite Heq in Hcollate. by injection Hcollate as <- <-.
  - unfold collate_metrics in Hcollate.
    destruct (collate_from_spec cols 0 [] [] (collate_from_Ok _ _ _ _ _ Hcollate))
      as (names' & idxs' & Heq & _ & _ & _ & Hsound & _).
    rewrite Heq in Hcollate. injection Hcollate as <- <-.
    apply Forall_lookup. intros n i Hi.
    destruct (Hsound n i Hi) as (key & name & Hkey & _ & Hm).
    rewrite Nat.sub_0_r in Hkey.
    apply metric_of_key_Some in Hm as [Hcol _].
    split_and!.
    + by eapply lookup_lt_Some.
    + intros ->. rewrite Hc in Hkey. injection Hkey as <-. apply Hcol.
      unfold non_metric_columns. set_solver.
    + intros ->. rewrite Hk in Hkey. injection Hkey as <-. apply Hcol.
      unfold non_metric_columns. set_solver.
Qed.

(** *** The rows of a table *)

(** Property X15.  When the loop over the rows of a table ends without an
    exception, it has gone over rows that all start with [|], and it stops
    at the end of the lines or at the first line that does not start with
    [|]; the scan goes on from that very line. *)
Theorem table_rows_end (hdr : table_header) (collection_name task : string)
    (rows : list string) :
  ∀ j st j' st',
    table_rows hdr collection_name task rows j st = Ok (j', st') →
    ∃ n, j' = j + n
         ∧ n ≤ length rows
         ∧ Forall (λ row, first_char row = Ok "|"%char) (take n rows)
         ∧ (∀ row, rows !! n = Some row → first_char row ≠ Ok "|"%char).
Proof.
  induction rows as [|row rows IH]; intros j st j' st'; simpl.
  - intros [= <- <-]. exists 0. split_and!; [lia|done|done|done].
  - intros Hrows. apply bind_Ok in Hrows as (c & Hc & Hrows).
    destruct (Ascii.eqb c "|") eqn:Hbar.
    + apply Ascii.eqb_eq in Hbar as ->.
      assert (∃ st1, table_rows hdr collection_name task rows (S j) st1 = Ok (j', st'))
        as [st1 Hrest].
      { apply bind_Ok in Hrows as ([m|] & _ & Hrows); eauto. }
      destruct (IH _ _ _ _ Hrest) as (n & -> & Hn & Hbars & Hstop).
      exists (S n). split_and!; [lia|simpl; lia|by constructor|done].
    + injection Hrows as <- <-. exists 0. split_and!; [lia|simpl; lia|done|].
      intros row' [= <-]. rewrite Hc. intros [= ->]. by rewrite Ascii.eqb_refl in Hbar.
Qed.

(** Property X16.  The loop over the rows of a table does not depend on
    what follows the first line that does not start with [|]. *)
Theorem table_rows_stops (hdr : table_header) (collection_name task : string)
    (rows : list string) (stop : string) (c : ascii) (rest rest' : list string) :
  first_char stop = Ok c → c ≠ "|"%char →
  ∀ j st,
    table_rows hdr collection_name task (rows ++ stop :: rest) j st
    = table_rows hdr collection_name task (rows ++ stop :: rest') j st.
Proof.
  intros Hstop Hc. induction rows as [|row rows IH]; intros j st; simpl.
  - rewrite Hstop. simpl.
    by destruct (Ascii.eqb c "|") eqn:Hbar; [apply Ascii.eqb_eq in Hbar|].
  - destruct (first_char row) as [c'|]; [|done]. simpl.
    destruct (Ascii.eqb c' "|"); [|done].
    destruct (parse_row _ _ _ _ _) as [[m|]|]; simpl; [apply IH|apply IH|done].
Qed.

End HeaderFacts.

(** ** The metrics of a row *)

Lemma dict_set_spec {V : Type} (k : string) (v : V) (d : list (string * V)) :
  (∀ x, x ∈ (dict_set k v d).*1 ↔ x = k ∨ x ∈ d.*1)
  ∧ (NoDup d.*1 → NoDup (dict_set k v d).*1)
  ∧ ((k, v) ∈ dict_set k v d)
  ∧ (∀ k' v', k' ≠ k → (k', v') ∈ d → (k', v') ∈ dict_set k v d)
  ∧ (∀ k' v', (k', v') ∈ dict_set k v d → (k', v') = (k, v) ∨ (k', v') ∈ d).
Proof.
  induction d as [|[k0 v0] d (IHk & IHn & IHv & IHo & IHi)]; simpl.
  - split_and!.
    + intros x. rewrite elem_of_cons. tauto.
    + intros _. apply NoDup_singleton.
    + by left.
    + by intros k' v' _ ?%elem_of_nil.
    + intros k' v'. rewrite elem_of_cons. tauto.
  - unfold Str.eqb. case_bool_decide as Hk; simpl.
    + subst k0. split_and!.
      * intros x. rewrite !elem_of_cons. tauto.
      * done.
      * by left.
      * intros k' v' Hne. rewrite !elem_of_cons. intros [[= ? ?]|?]; by auto.
      * intros k' v'. rewrite !elem_of_cons. tauto.
    + split_and!.
      * intros x. rewrite !elem_of_cons, IHk. tauto.
      * intros [Hk0 Hd]%NoDup_cons. apply NoDup_cons. split; [|by apply IHn].
        rewrite IHk. intros [?|?]; [by apply Hk|done].
      * by right.
      * intros k' v' Hne. rewrite !elem_of_cons. intros [?|?]; [by left|right; auto].
      * intros k' v'. rewrite !elem_of_cons. intros [?|[?|?]%IHi]; auto.
Qed.

Section MetricsFacts.
Context `{PyFloat}.

Lemma collect_metrics_keeps (line : list string) (pairs : list (string * nat)) :
  ∀ metrics d name v,
    collect_metrics line pairs metrics = Ok d →
    name ∉ pairs.*1 → (name, v) ∈ metrics → (name, v) ∈ d.
Proof.
  induction pairs as [|[n idx] pairs IH]; intros metrics d name v; simpl.
  - by intros [= <-].
  - intros Hd. apply bind_Ok in Hd as (value & _ & Hd).
    intros [Hne Hrest]%not_elem_of_cons Hin.
    apply (IH _ _ _ _ Hd Hrest).
    by apply (dict_set_spec n value metrics).
Qed.

Lemma collect_metrics_spec (line : list string) (pairs : list (string * nat)) :
  ∀ metrics d,
    collect_metrics line pairs metrics = Ok d →
    (NoDup metrics.*1 → NoDup d.*1)
    ∧ (∀ x, x ∈ d.*1 ↔ x ∈ metrics.*1 ∨ x ∈ pairs.*1)
    ∧ (∀ name v, (name, v) ∈ d →
         (name, v) ∈ metrics
         ∨ ∃ idx, (name, idx) ∈ pairs ∧ float_cell line idx = Ok v)
    ∧ (∀ earlier name idx later v,
         pairs = earlier ++ (name, idx) :: later → name ∉ later.*1 →
         float_cell line idx = Ok v → (name, v) ∈ d).
Proof.
  induction pairs as [|[name idx] pairs IH]; intros metrics d; simpl.
  - intros [= <-]. split_and!; [done| |by left|].
    + intros x. rewrite elem_of_nil. tauto.
    + intros earlier ? ? ? ? Hnil. by destruct earlier.
  - intros Hd. apply bind_Ok in Hd as (value & Hvalue & Hd).
    destruct (dict_set_spec name value metrics) as (Hk & Hn & Hv & Ho & Hi).
    destruct (IH _ _ Hd) as (IHn & IHk & IHv & IHlast). split_and!.
    + intros Hnodup. by apply IHn, Hn.
    + intros x. rewrite IHk, Hk, elem_of_cons. simpl. tauto.
    + intros n v Hin. destruct (IHv n v Hin) as [Hset|(i & Hin' & Hcell)].
      * apply Hi in Hset as [[= -> ->]|Hold]; [|by left].
        right. exists idx. split; [by left|done].
      * right. exists i. split; [by right|done].
    + intros [|e earlier] n i later v; simpl.
      * intros [= <- <- <-] Hlater Hcell.
        rewrite Hvalue in Hcell. injection Hcell as <-.
        by apply (collect_metrics_keeps line pairs (dict_set name value metrics)).
      * intros [= _ ->] Hlater Hcell. by apply (IHlast earlier n i later v).
Qed.

(** Property X17.  The metrics of a record hold every metric name of the
    header, each once; every value is the number in the cell of a column
    of that name; and when several columns have the same name, the value
    of the last one is kept. *)
Theorem collect_metrics_dict (line : list string) (pairs : list (string * nat))
    (d : list (string * float)) :
  collect_metrics line pairs [] = Ok d →
  NoDup d.*1
  ∧ (∀ name, name ∈ d.*1 ↔ name ∈ pairs.*1)
  ∧ (∀ name v, (name, v) ∈ d →
       ∃ idx, (name, idx) ∈ pairs ∧ float_cell line idx = Ok v)
  ∧ (∀ earlier name idx later v,
       pairs = earlier ++ (name, idx) :: later → name ∉ later.*1 →
       float_cell line idx = Ok v → (name, v) ∈ d).
Proof.
  intros Hd. destruct (collect_metrics_spec _ _ _ _ Hd) as (Hn & Hk & Hv & Hlast).
  split_and!.
  - apply Hn. constructor.
  - intros name. rewrite Hk. simpl. rewrite elem_of_nil. tauto.
  - intros name v Hin. destruct (Hv name v Hin) as [Hnil|?]; [|done].
    by apply elem_of_nil in Hnil.
  - done.
Qed.

(** ** The names of the reference blocks *)

Lemma before_stops (c : ascii) (s : string) :
  all_chars (λ a, negb (Ascii.eqb a c)) (Str.before c s) = true.
Proof.
  induction s as [|a s IH]; [done|]. simpl.
  destruct (Ascii.eqb a c) eqn:Ha; [done|]. simpl. by rewrite Ha, IH.
Qed.

Lemma block_name_strip (name : string) :
  block_name (Str.strip (Str.before "(" name)).
Proof.
  unfold block_name, Str.strip. split_and!; [apply strip_by_ends..|].
  apply all_chars_strip_by, before_stops.
Qed.

(** Property X18.  In what parsing a document returns, every architecture
    name and the training data of every record are names as a reference
    block gives them: without white space at either end and without an
    opening parenthesis. *)
Theorem parse_lines_names (collection_name task : string) (lines : list string)
    (st : locals) :
  parse_lines collection_name task lines = Ok st →
  Forall block_name (loc_Architecture st)
  ∧ Forall (λ m, block_name (meta_TrainingData (model_Metadata m))) (loc_models st).
Proof.
  intros Hparse.
  cut (Forall block_name (loc_Architecture st)
       ∧ (∀ d, loc_dataset st = Some d → block_name d)
       ∧ Forall (λ m, block_name (meta_TrainingData (model_Metadata m))) (loc_models st)).
  { intros (? & _ & ?). done. }
  revert Hparse.
  apply (parse_lines_invariant collection_name task
           (λ st, Forall block_name (loc_Architecture st)
                  ∧ (∀ d, loc_dataset st = Some d → block_name d)
                  ∧ Forall (λ m, block_name (meta_TrainingData (model_Metadata m)))
                      (loc_models st))).
  { split_and!; [by constructor|done|by constructor]. }
  intros i st0 i' st' _ (Harch & Hdata & Hmodels). unfold step. intros Hstep.
  apply bind_Ok in Hstep as (line & _ & Hstep).
  destruct (Str.eqb (Str.take 2 line) "<!").
  - apply bind_Ok in Hstep as (st1 & Hann & [= <- <-]).
    unfold annotation in Hann.
    apply bind_Ok in Hann as (line' & _ & Hann).
    apply bind_Ok in Hann as (anchor_line & _ & Hann).
    apply bind_Ok in Hann as ([url name] & _ & [= <-]). simpl.
    pose proof (block_name_strip name) as Hname. split_and!; [| |done].
    + destruct (_ || _); [|done]. apply Forall_app. split; [done|by constructor].
    + intros d. destruct (_ || _); [by apply Hdata|].
      destruct (Str.contains "DATASET" line'); [by intros [= <-]|by apply Hdata].
  - apply bind_Ok in Hstep as (c & _ & Hstep).
    destruct (Ascii.eqb c "|" && separator_follows lines i); [|by injection Hstep as <- <-].
    apply bind_Ok in Hstep as (hdr & _ & Hstep).
    eapply (table_rows_invariant collection_name task
              (λ s, Forall block_name (loc_Architecture s)
                    ∧ (∀ d, loc_dataset s = Some d → block_name d)
                    ∧ Forall (λ m, block_name (meta_TrainingData (model_Metadata m)))
                        (loc_models s)));
      [|by split_and!|exact Hstep].
    intros s row m (Ha & Hd & Hm) Hrow. simpl. split_and!; [done|done|].
    apply Forall_app. split; [done|]. constructor; [|done].
    apply parse_row_Some in Hrow as (? & ? & d & ? & _ & _ & Hdataset & _ & _ & _ & -> & _).
    by apply Hd.
Qed.

End MetricsFacts.

(** ** Text without blocks and tables *)

Section PlainText.
Context `{PyFloat}.

Lemma scan_plain (collection_name task : string) (lines : list string) (st : locals) :
  Forall (λ line, Str.eqb (Str.take 2 line) "<!" = false
                  ∧ ∃ c, first_char line = Ok c ∧ c ≠ "|"%char) lines →
  ∀ fuel i, length lines - i < fuel →
    scan fuel collection_name task lines i st = Some (Ok st).
Proof.
  intros Hlines. induction fuel as [|fuel IH]; intros i Hfuel; [lia|].
  simpl. case_decide as Hi; [|done].
  destruct (lookup_lt_is_Some_2 lines i Hi) as [line Hline].
  destruct (proj1 (Forall_lookup _ _) Hlines i line Hline) as (Hopen & c & Hc & Hbar).
  unfold step. rewrite Hline. simpl. rewrite Hopen, Hc. simpl.
  assert (Ascii.eqb c "|" = false) as -> by (by apply Ascii.eqb_neq).
  simpl. apply IH. lia.
Qed.

Lemma readlines_nonempty (s : string) : Forall (λ l, l ≠ "") (readlines s).
Proof.
  induction s as [|c s IH]; [by constructor|]. simpl.
  destruct (Ascii.eqb c LF); [by constructor|].
  destruct (readlines s) as [|l ls]; [by repeat constructor|].
  apply Forall_cons in IH as [_ Hls]. by constructor.
Qed.

(** Property X19.  A text none of whose lines starts with [<!] or with
    [|] is parsed without an exception, and the result is empty. *)
Theorem plain_text (collection_name task text : string) :
  Forall (λ line, Str.eqb (Str.take 2 line) "<!" = false
                  ∧ first_char line ≠ Ok "|"%char) (readlines text) →
  parse_lines collection_name task (readlines text) = Ok init_locals.
Proof.
  intros Hlines. unfold parse_lines.
  rewrite (scan_plain collection_name task (readlines text) init_locals); [done| |lia].
  pose proof (readlines_nonempty text) as Hne.
  induction Hlines as [|line lines [Hopen Hbar] _ IH]; [by constructor|].
  apply Forall_cons in Hne as [Hline Hne]. constructor; [|by apply IH].
  split; [done|]. destruct line as [|c line]; [done|].
  exists c. split; [done|]. intros ->. by apply Hbar.
Qed.

End PlainText.

(** ** The task name *)

Section TaskName.
Context `{PyFloat}.
Variable relpath : string → string.

(** Property X20.  Reading the task name changes no file; for an empty
    path it raises [ValueError]; and when it returns a name, the summary
    document is there and the name is its first line without the first
    two characters, trimmed: it has no white space at either end. *)
Theorem get_task_name_reads_only (md_file : string) (w : world) :
  (get_task_name relpath md_file w).2 = w
  ∧ (md_file = "" → (get_task_name relpath md_file w).1 = Raise ValueError)
  ∧ (∀ task, (get_task_name relpath md_file w).1 = Ok task →
       (∃ text, files w !! readme_path relpath md_file = Some text
                ∧ task = Str.strip (Str.drop 2 (readline (universal_newlines text))))
       ∧ first_char_fails Str.is_space task
       ∧ last_char_fails Str.is_space task).
Proof.
  unfold get_task_name, readme_path, osp_relpath.
  unfold mbind at 1 2 3 4 5 6. unfold io_bind, lift, read_text.
  unfold Str.eqb. case_bool_decide as Hempty; simpl.
  { split_and!; [done|done|]. by intros task [=]. }
  destruct (files w !! path_join (rsplit3_head (relpath md_file)) "README.md")
    as [text|] eqn:Hreadme; simpl.
  - split_and!; [done|done|]. intros task [= <-].
    split; [by exists text|apply strip_by_ends].
  - split_and!; [done|done|]. by intros task [=].
Qed.

End TaskName.

(** ** What a run touches *)

Section RunFrame.
Context `{PyFloat}.
Variable MMPOSE_ROOT : string.
Variable relpath : string → string.
Variable glob_yml : gset string → list string.
Variable dump : yaml_obj → string.

Abbreviation tool_parse_md := (parse_md relpath dump).
Abbreviation tool_parse_all := (parse_all relpath dump).
Abbreviation tool_update_model_index := (update_model_index MMPOSE_ROOT relpath glob_yml dump).
Abbreviation tool_main := (main MMPOSE_ROOT relpath glob_yml dump).
Abbreviation tool_dump_yaml_and_check_difference := (dump_yaml_and_check_difference dump).

(** Property X21.  Whenever dumping an object to a file returns, the file
    holds the dumped text and every other file is as it was; the answer is
    that the file changed if it did not exist, and the answer that nothing
    changed is given only for a file whose text, read with line endings
    translated, was the dumped text. *)
Theorem dump_writes_one_file (obj : yaml_obj) (file : string) (w : world)
    (changed : bool) (w' : world) :
  tool_dump_yaml_and_check_difference obj file w = (Ok changed, w') →
  files w' !! file = Some (dump obj)
  ∧ (∀ p, p ≠ file → files w' !! p = files w !! p)
  ∧ (files w !! file = None → changed = true)
  ∧ (changed = false →
       ∃ before, files w !! file = Some before
                 ∧ universal_newlines before = universal_newlines (dump obj)).
Proof.
  rewrite dump_yaml_result. intros [= <- <-].
  unfold after_write, text_changed, written. simpl. split_and!.
  - apply lookup_insert_eq.
  - intros p Hp. by apply lookup_insert_ne.
  - by intros ->.
  - destruct (files w !! file) as [before|]; [|done].
    intros Hsame%negb_false_iff. exists before. split; [done|].
    unfold Str.eqb in Hsame. by apply bool_decide_eq_true in Hsame.
Qed.

(** Property X22.  Dumping the same object to the same file a second time
    answers that nothing changed and leaves the files as they were. *)
Theorem dump_again_unchanged (obj : yaml_obj) (file : string) (w : world) :
  ∃ w2,
    tool_dump_yaml_and_check_difference obj file
      (tool_dump_yaml_and_check_difference obj file w).2
    = (Ok false, w2)
    ∧ files w2 = files (tool_dump_yaml_and_check_difference obj file w).2.
Proof.
  rewrite !dump_yaml_result. cbn [snd]. eexists. split.
  - f_equal. f_equal. unfold text_changed, written, after_write. simpl.
    rewrite lookup_insert_eq. unfold Str.eqb. by rewrite bool_decide_eq_true_2.
  - unfold after_write. simpl. apply insert_insert_eq.
Qed.

Lemma after_write_other (w : world) (file text p : string) :
  p ≠ file → files (after_write w file text) !! p = files w !! p.
Proof. intros Hp. unfold after_write. simpl. by apply lookup_insert_ne. Qed.

Lemma parse_md_frame (md_file : string) (w : world) (p : string) :
  p ≠ yml_file_of md_file → files (tool_parse_md md_file w).2 !! p = files w !! p.
Proof.
  intros Hp. destruct (tool_parse_md md_file w) as [r w'] eqn:Hmd.
  apply parse_md_result in Hmd as [(e & _ & -> & _)|(obj & _ & _ & ->)]; [done|].
  by apply after_write_other.
Qed.

Lemma parse_all_frame (file_list : list string) (p : string) :
  p ∉ yml_file_of <$> file_list →
  ∀ file_modified w,
    files (tool_parse_all file_list file_modified w).2 !! p = files w !! p.
Proof.
  induction file_list as [|fn file_list IH]; intros Hp file_modified w; [done|].
  rewrite parse_all_cons.
  apply not_elem_of_cons in Hp as [Hfn Hp].
  pose proof (parse_md_frame fn w p Hfn) as Hmd.
  destruct (tool_parse_md fn w) as [[changed|e] w1]; [|done].
  by rewrite IH.
Qed.

Lemma update_model_index_frame (w : world) (p : string) :
  p ≠ model_index_file MMPOSE_ROOT →
  files (tool_update_model_index w).2 !! p = files w !! p.
Proof.
  intros Hp. destruct (tool_update_model_index w) as [r w'] eqn:Hindex.
  apply update_model_index_result in Hindex as [(e & _ & ->)|(imports & _ & _ & ->)]; [done|].
  by apply after_write_other.
Qed.

(** Property X23.  A run, whether it ends through [exit] or with an
    exception, changes no file other than the descriptors of the documents
    it was given and the index. *)
Theorem main_frame (args : list string) (w : world) (p : string) :
  p ∉ outputs_of MMPOSE_ROOT (file_list_of args) →
  files (tool_main args w).2 !! p = files w !! p.
Proof.
  unfold outputs_of. intros Hp.
  apply not_elem_of_app in Hp as [Hyml Hindex].
  apply not_elem_of_cons in Hindex as [Hindex _].
  destruct (decide (file_list_of args = [])) as [Hnil|Hne].
  { unfold main. by rewrite Hnil. }
  rewrite main_run by done.
  pose proof (parse_all_frame _ p Hyml false w) as Hall.
  destruct (tool_parse_all (file_list_of args) false w) as [[file_modified|e] w1]; [|done].
  pose proof (update_model_index_frame w1 p Hindex) as Hupd.
  destruct (tool_update_model_index w1) as [[index_changed|e] w2];
    simpl in *; congruence.
Qed.

Lemma after_write_present (w : world) (file text p : string) :
  is_Some (files w !! p) → is_Some (files (after_write w file text) !! p).
Proof.
  intros Hp. unfold after_write. simpl.
  destruct (decide (p = file)) as [->|Hne].
  - rewrite lookup_insert_eq. by eexists.
  - by rewrite lookup_insert_ne.
Qed.

Lemma parse_all_present (file_list : list string) :
  ∀ file_modified w changed w',
    tool_parse_all file_list file_modified w = (Ok changed, w') →
    (∀ p, is_Some (files w !! p) → is_Some (files w' !! p))
    ∧ Forall (λ fn, is_Some (files w' !! yml_file_of fn)) file_list.
Proof.
  induction file_list as [|fn file_list IH]; intros file_modified w changed w'.
  - by intros [= <- <-].
  - rewrite parse_all_cons.
    destruct (tool_parse_md fn w) as [r w1] eqn:Hmd.
    apply parse_md_result in Hmd as [(e & -> & _)|(obj & _ & -> & ->)]; [done|].
    intros Hrest. apply IH in Hrest as [Hkeep Hdone]. split.
    + intros p Hp. by apply Hkeep, after_write_present.
    + constructor; [|done]. apply Hkeep. unfold after_write. simpl.
      rewrite lookup_insert_eq. by eexists.
Qed.

(** Property X24.  After a run over at least one document that ends
    through [exit], the descriptor of every document and the index
    exist. *)
Theorem outputs_exist (args : list string) (w : world) (n : Z) (w' : world) :
  file_list_of args ≠ [] →
  tool_main args w = (Ok n, w') →
  Forall (λ p, is_Some (files w' !! p)) (outputs_of MMPOSE_ROOT (file_list_of args)).
Proof.
  intros Hne. rewrite main_run by done.
  destruct (tool_parse_all (file_list_of args) false w) as [[file_modified|e] w1] eqn:Hall;
    [|done].
  apply parse_all_present in Hall as [_ Hyml].
  destruct (tool_update_model_index w1) as [r w2] eqn:Hindex.
  apply update_model_index_result in Hindex as [(e & -> & _)|(imports & _ & -> & ->)]; [done|].
  intros [= _ <-]. unfold outputs_of. apply Forall_app. split.
  - apply Forall_fmap. eapply Forall_impl; [exact Hyml|].
    intros fn Hfn. by apply after_write_present.
  - constructor; [|done]. unfold after_write. simpl.
    rewrite lookup_insert_eq. by eexists.
Qed.

(** Property X25.  A run all of whose arguments are summary documents
    exits with 0 and touches no file: the index is not written either. *)
Theorem readme_only_run (args : list string) (w : world) :
  Forall (λ fn, basename fn = "README.md") args →
  tool_main args w = (Ok 0%Z, w).
Proof.
  intros Hargs. unfold main.
  assert (file_list_of args = []) as ->; [|done].
  unfold file_list_of. induction Hargs as [|fn args Hfn _ IH]; [done|].
  rewrite filter_cons_False by (by intros ?). done.
Qed.

(** Property X26.  For an empty path, a document whose summary document is
    no file, or a document that is no file, [parse_md] raises and writes
    nothing; for the empty path the exception is [ValueError]. *)
Theorem parse_md_unreadable (md_file : string) (w : world) :
  md_file = ""
  ∨ files w !! readme_path relpath md_file = None
  ∨ files w !! md_file = None →
  ∃ e, tool_parse_md md_file w = (Raise e, w) ∧ (md_file = "" → e = ValueError).
Proof.
  intros Hbad. rewrite parse_md_parse_doc. unfold parse_doc, osp_relpath.
  destruct (decide (md_file = "")) as [->|Hne].
  { by exists ValueError. }
  unfold Str.eqb. rewrite bool_decide_eq_false_2 by done.
  cbn [mbind result_bind]. exists FileNotFoundError. split; [|done].
  destruct Hbad as [?|[-> | Hdoc]]; [done|done|].
  destruct (files w !! readme_path relpath md_file); [|done].
  by rewrite Hdoc.
Qed.

(** Property X27.  For a document [<dir>/<name>.<ext>] the collection of
    the descriptor is named [<name>], its README is the path of the
    document relative to the root, and every record of the descriptor is
    in the collection [<name>]. *)
Theorem descriptor_collection (dir name ext : string) (fs : gmap string string)
    (obj : yaml_obj) :
  Str.mem "/" name = false → all_dots name = false →
  Str.mem "/" ext = false → Str.mem "." ext = false →
  parse_doc relpath (dir +:+ "/" +:+ name +:+ "." +:+ ext) fs = Ok obj →
  ∃ c models,
    obj = ModelFile c models
    ∧ coll_Name c = name
    ∧ coll_README c = relpath (dir +:+ "/" +:+ name +:+ "." +:+ ext)
    ∧ Forall (λ m, model_InCollection m = name) models.
Proof.
  intros Hname Hnamed Hslash Hdot. unfold parse_doc.
  rewrite basename_file
    by (rewrite mem_app, Hname; simpl; by rewrite Hslash).
  rewrite splitext_root_file by done.
  intros Hdoc.
  apply bind_Ok in Hdoc as (readme & Hreadme & Hdoc).
  apply bind_Ok in Hdoc as (readme_text & _ & Hdoc).
  apply bind_Ok in Hdoc as (text & _ & Hdoc).
  apply bind_Ok in Hdoc as (st & Hst & [= <-]).
  eexists _, _. split; [done|]. simpl. split_and!; [done| |].
  - unfold osp_relpath in Hreadme.
    destruct (Str.eqb _ "") in Hreadme; [done|]. by injection Hreadme as <-.
  - revert Hst.
    apply (parse_lines_invariant _ _ (λ st, Forall (λ m, model_InCollection m = name) (loc_models st)));
      [by constructor|].
    intros i st0 i' st' _. apply step_models.
    intros hdr dataset row m Hm.
    by apply parse_row_Some in Hm as (? & ? & ? & ? & _ & _ & _ & _ & _ & ? & _).
Qed.

End RunFrame.


(** ** The claims on the sample environment *)

#[local] Existing Instance Decimal.instance.

Example parse_header_coco : parse_header Sample.coco_header = Ok Sample.coco_hdr.
Proof. reflexivity. Qed.

Example parse_row_bar :
  parse_row Sample.coco_hdr "hrnet_coco" "2D Body Keypoint" (Some "COCO") Sample.linked_row
  = Ok (Some Sample.bar_model).
Proof. reflexivity. Qed.

(** A row of the sample table, for claim C5 *)
Lemma model_name_of_config_link_witness :
  model_Name Sample.bar_model = String.concat "--" (["body"; "2d_kpt"; "foo"] ++ ["bar"])
  ∧ model_Config Sample.bar_model = config_target ["body"; "2d_kpt"; "foo"] "bar" "py".
Proof.
  apply (model_name_of_config_link Sample.coco_hdr "hrnet_coco" "2D Body Keypoint" (Some "COCO")
           Sample.linked_row " [pose_hrnet](configs/body/2d_kpt/foo/bar.py) ");
    try reflexivity.
  - by repeat constructor.
  - discriminate.
  - split; reflexivity.
Defined.

(** The row without a link of the sample table, for claim C7 *)
Lemma row_without_link_skipped_witness :
  parse_row Sample.coco_hdr "hrnet_coco" "2D Body Keypoint" (loc_dataset init_locals)
    Sample.unlinked_row
  = Ok None
  ∧ table_rows Sample.coco_hdr "hrnet_coco" "2D Body Keypoint"
      [Sample.unlinked_row; Sample.linked_row] 11 init_locals
    = table_rows Sample.coco_hdr "hrnet_coco" "2D Body Keypoint"
        [Sample.linked_row] 12 init_locals.
Proof.
  apply (row_without_link_skipped Sample.coco_hdr "hrnet_coco" "2D Body Keypoint"
           Sample.unlinked_row [Sample.linked_row] 11 init_locals " pose_hrnet ");
    reflexivity.
Defined.

(** The data set block of the sample document, for claim C8 *)
Lemma annotation_block_witness :
  ∃ st',
    step "hrnet_coco" "2D Body Keypoint" Sample.hrnet_lines 4 init_locals = Ok (4 + 4, st')
    ∧ loc_Paper st' = loc_Paper init_locals ++ ["http://paper/coco"]
    ∧ loc_Architecture st' = loc_Architecture init_locals
    ∧ loc_dataset st' = Some "COCO"
    ∧ loc_models st' = loc_models init_locals.
Proof.
  apply (annotation_block "hrnet_coco" "2D Body Keypoint" Sample.hrnet_lines 4 init_locals
           (String.append "<!-- [DATASET] -->" Sample.nl)
           (String.append (Sample.anchor "http://paper/coco" "COCO (ECCV'2014)") Sample.nl)
           "http://paper/coco" "COCO (ECCV'2014)"); reflexivity.
Defined.




Lemma sample_glob_index (paths : gset string) :
  Sample.glob_yml ({[model_index_file Sample.root]} ∪ paths) ≡ₚ Sample.glob_yml paths.
Proof.
  unfold Sample.glob_yml. destruct (decide (model_index_file Sample.root ∈ paths)) as [Hin|Hin].
  - assert ({[model_index_file Sample.root]} ∪ paths = paths) as ->; [|done].
    apply subseteq_union_1_L. by apply singleton_subseteq_l.
  - rewrite elements_union_singleton by done. by rewrite filter_cons_False.
Qed.

(** A first run on the sample document, for claim C1 *)
Lemma exit_status_of_completed_run_witness :
  ∃ evs, history Sample.after_first_run = history Sample.w0 ++ evs
         ∧ exit_status (Ok 1%Z) = if existsb text_changed evs then 1%Z else 0%Z.
Proof.
  apply (exit_status_of_completed_run Sample.root Sample.relpath Sample.glob_yml
           Sample.dump [Sample.hrnet_path] Sample.w0).
  by vm_compute.
Defined.

(** Claim C1 as stated fails twice.  A run that raises before any write
    ends with status 1 although no file changed.  And a run that only
    replaces CR LF line ends of the index by line feeds changes the bytes of
    the index and exits with 0. *)
Lemma exit_status_counterexample :
  (Sample.main [Sample.broken_path] Sample.w_broken = (Raise IndexError, Sample.w_broken)
   ∧ exit_status (Raise IndexError) = 1%Z)
  ∧ ((Sample.main [Sample.hrnet_path] Sample.w_crlf).1 = Ok 0%Z
     ∧ files Sample.w_crlf !! Sample.index_path = Some (Sample.crlf Sample.index_text)
     ∧ files (Sample.main [Sample.hrnet_path] Sample.w_crlf).2 !! Sample.index_path
       = Some Sample.index_text
     ∧ Sample.crlf Sample.index_text ≠ Sample.index_text).
Proof. by vm_compute. Qed.

(** A broken document after the sample document, for claim C6 *)
Lemma abort_keeps_earlier_outputs_witness :
  ∃ e, (e = IndexError ∨ e = ValueError)
       ∧ Sample.main Sample.two_documents Sample.w_broken
         = (Raise e, (Sample.parse_md Sample.hrnet_path Sample.w_broken).2).
Proof.
  apply (abort_keeps_earlier_outputs Sample.root Sample.relpath Sample.glob_yml Sample.dump
           Sample.two_documents [Sample.hrnet_path] Sample.broken_path []
           Sample.w_broken true (Sample.parse_md Sample.hrnet_path Sample.w_broken).2
           (Sample.text ["# 2D Body Keypoint"; ""; "text"]) Sample.broken_md 1 init_locals).
  - reflexivity.
  - by vm_compute.
  - discriminate.
  - by vm_compute.
  - by vm_compute.
  - apply (reaches_turn _ _ _ 0 init_locals 1 init_locals); [simpl; lia|done|].
    apply reaches_here.
  - left. exists (String.append "<!-- [ALGORITHM] -->" Sample.nl). split_and!; [done|done|].
    right. by exists (String.append "no anchor here" Sample.nl).
Defined.

(** Two runs on the sample document, for claim C2 *)
Lemma second_run_changes_nothing_witness :
  ∃ evs,
    Sample.main [Sample.hrnet_path] Sample.after_first_run
    = (Ok 0%Z, {| files := files Sample.after_first_run;
                  history := history Sample.after_first_run ++ evs |})
    ∧ Forall rewrites_same evs.
Proof.
  apply (second_run_changes_nothing Sample.root Sample.relpath Sample.glob_yml
           Sample.dump [Sample.hrnet_path] Sample.w0 1%Z).
  - apply sample_glob_index.
  - by vm_compute.
  - apply Forall_forall. refine (bool_decide_unpack _ _). by vm_compute.
  - intros fn fn' [->|[]%elem_of_nil]%elem_of_cons [->|[]%elem_of_nil]%elem_of_cons. done.
  - refine (bool_decide_unpack _ _). by vm_compute.
Defined.

(** Claim C2 as stated fails twice.  With two documents that share a
    descriptor path, the second run, on unchanged documents, rewrites the
    descriptor twice with different content and exits with 1.  And when the
    first run raises, so does the second: its status is 1. *)
Lemma second_run_counterexample :
  ((Sample.main Sample.twins Sample.w_twins).1 = Ok 1%Z
   ∧ (Sample.main Sample.twins Sample.after_twins).1 = Ok 1%Z
   ∧ files Sample.after_twins !! Sample.twin_a = files Sample.w_twins !! Sample.twin_a
   ∧ files Sample.after_twins !! Sample.twin_b = files Sample.w_twins !! Sample.twin_b)
  ∧ (Sample.main [Sample.broken_path] Sample.w_broken = (Raise IndexError, Sample.w_broken)
     ∧ Sample.main [Sample.broken_path] (Sample.main [Sample.broken_path] Sample.w_broken).2
       = (Raise IndexError, Sample.w_broken)
     ∧ exit_status (Raise IndexError) = 1%Z).
Proof. by vm_compute. Qed.

(** ** Further properties on the sample environment *)

(** A header of the PCKh kind, for property X1 *)
Lemma used_metric_clean_witness :
  first_char_fails Str.is_space "PCKh @0.5"
  ∧ last_char_fails Str.is_space "PCKh @0.5"
  ∧ all_chars (λ c, negb (markup c)) "PCKh @0.5" = true.
Proof.
  apply (used_metric_clean "pck" "*PCKh*<x>@0.5 ").
  - by intros [[=]|[[=]|[]%elem_of_nil]%elem_of_cons]%elem_of_cons.
  - reflexivity.
Defined.

(** A cell with a second closing parenthesis, for property X2 *)
Lemma link_target_sound_witness :
  ∃ pre post,
    " [a](configs/x.py) b) " = pre +:+ "](" +:+ "configs/x.py" +:+ ")" +:+ post
    ∧ Str.find "](" pre = None
    ∧ Str.mem ")" "configs/x.py" = false.
Proof. apply (link_target_sound " [a](configs/x.py) b) " "configs/x.py"). reflexivity. Defined.

(** The anchor line of the sample document, for property X3 *)
Lemma find_anchor_sound_witness :
  ∃ segment pre post,
    segment ∈ Str.split LF (Sample.anchor "http://paper/hrnet" "HRNet (CVPR'2019)")
    ∧ segment
      = pre +:+ anchor_open +:+ "http://paper/hrnet" +:+ anchor_mid
        +:+ "HRNet (CVPR'2019)" +:+ anchor_close +:+ post
    ∧ Str.mem LF "http://paper/hrnet" = false
    ∧ Str.mem LF "HRNet (CVPR'2019)" = false.
Proof.
  apply (find_anchor_sound (Sample.anchor "http://paper/hrnet" "HRNet (CVPR'2019)")).
  reflexivity.
Defined.

Example parse_lines_hrnet :
  parse_lines "hrnet_coco" "2D Body Keypoint" Sample.hrnet_lines = Ok hrnet_locals.
Proof. reflexivity. Qed.

(** The sample document, for property X4 *)
Lemma parse_lines_records_witness :
  Forall (record_of_row "hrnet_coco" "2D Body Keypoint") (loc_models hrnet_locals).
Proof.
  apply (parse_lines_records "hrnet_coco" "2D Body Keypoint" Sample.hrnet_lines).
  reflexivity.
Defined.

(** The sample document, for property X5 *)
Lemma architecture_has_paper_witness :
  length (loc_Architecture hrnet_locals) ≤ length (loc_Paper hrnet_locals).
Proof.
  apply (architecture_has_paper "hrnet_coco" "2D Body Keypoint" Sample.hrnet_lines).
  reflexivity.
Defined.

(** A table of one row without link and no block, for property X6 *)
Lemma no_block_no_record_witness : init_locals = init_locals.
Proof.
  apply (no_block_no_record "hrnet_coco" "2D Body Keypoint"
           ((λ l, l +:+ Sample.nl) <$>
              [ "# Title"; Sample.coco_header;
                "| :--- | :--: | :--: | :--: | :--: | :--: |"; Sample.unlinked_row ])).
  - by repeat constructor.
  - reflexivity.
Defined.

(** The sample document, for property X7 *)
Lemma scan_terminates_witness :
  scan 100 "hrnet_coco" "2D Body Keypoint" Sample.hrnet_lines 0 init_locals
  = Some (parse_lines "hrnet_coco" "2D Body Keypoint" Sample.hrnet_lines).
Proof.
  apply (scan_terminates "hrnet_coco" "2D Body Keypoint" Sample.hrnet_lines 100).
  vm_compute. lia.
Defined.

(** A row of two cells, for property X10 *)
Lemma row_cells_witness :
  middle (Str.split "|" (String.concat "|" ("" :: [" a "; "b"] ++ [Sample.nl])))
  = [" a "; "b"].
Proof. apply (row_cells [" a "; "b"] "" Sample.nl); by repeat constructor. Defined.

(** The sample document, for property X11 *)
Lemma readme_three_levels_up_witness :
  readme_path Sample.relpath Sample.hrnet_path
  = String.concat "/" (["configs"; "body"] ++ ["2d_kpt"; "README.md"]).
Proof.
  apply (readme_three_levels_up Sample.relpath Sample.hrnet_path
           ["configs"; "body"] "2d_kpt" "foo" "coco" "hrnet_coco.md").
  - reflexivity.
  - by repeat constructor.
  - discriminate.
Defined.

(** A header with an unclosed bracket after the Arch cell, for property X13 *)
Lemma collate_metrics_raises_witness :
  ∃ earlier key later,
    ["Arch"; "AP<"; "ckpt"] = earlier ++ key :: later
    ∧ Forall (λ key, is_ok (metric_of_key key) = true) earlier
    ∧ (key ∉ non_metric_columns)
    ∧ ∃ metric, first_match key = Some metric
                ∧ used_metric_of metric key = Raise IndexError.
Proof. apply (collate_metrics_raises ["Arch"; "AP<"; "ckpt"] IndexError). reflexivity. Defined.

(** The header of the sample table, for property X14 *)
Lemma parse_header_columns_witness :
  let cols := middle (Str.strip <$> Str.split "|" Sample.coco_header) in
  cols !! config_idx Sample.coco_hdr = Some "Arch"
  ∧ cols !! ckpt_idx Sample.coco_hdr = Some "ckpt"
  ∧ (∀ k, flops_idx Sample.coco_hdr = Some k → cols !! k = Some "FLOPs")
  ∧ (∀ k, params_idx Sample.coco_hdr = Some k → cols !! k = Some "Params")
  ∧ length (metric_name_list Sample.coco_hdr) = length (metric_idx_list Sample.coco_hdr)
  ∧ Forall (λ i, i < length cols ∧ i ≠ config_idx Sample.coco_hdr
                 ∧ i ≠ ckpt_idx Sample.coco_hdr)
      (metric_idx_list Sample.coco_hdr).
Proof. apply (parse_header_columns Sample.coco_header Sample.coco_hdr). reflexivity. Defined.

(** A row without link and a line of text after it, for property X15 *)
Lemma table_rows_end_witness :
  ∃ n, 12 = 11 + n
       ∧ n ≤ length [Sample.unlinked_row; "text"]
       ∧ Forall (λ row, first_char row = Ok "|"%char)
           (take n [Sample.unlinked_row; "text"])
       ∧ (∀ row, [Sample.unlinked_row; "text"] !! n = Some row →
            first_char row ≠ Ok "|"%char).
Proof.
  apply (table_rows_end Sample.coco_hdr "hrnet_coco" "2D Body Keypoint"
           [Sample.unlinked_row; "text"] 11 init_locals 12 init_locals).
  reflexivity.
Defined.

(** The same rows, with and without a linked row after the text, for
    property X16 *)
Lemma table_rows_stops_witness :
  table_rows Sample.coco_hdr "hrnet_coco" "2D Body Keypoint"
    ([Sample.unlinked_row] ++ "text" :: [Sample.linked_row]) 11 init_locals
  = table_rows Sample.coco_hdr "hrnet_coco" "2D Body Keypoint"
      ([Sample.unlinked_row] ++ "text" :: []) 11 init_locals.
Proof.
  apply (table_rows_stops Sample.coco_hdr "hrnet_coco" "2D Body Keypoint"
           [Sample.unlinked_row] "text" "t" [Sample.linked_row] []).
  - reflexivity.
  - discriminate.
Defined.

(** Two columns of the same name, for property X17 *)
Lemma collect_metrics_dict_witness :
  NoDup [("AP", (false, 7%N, 1))].*1
  ∧ (∀ name, name ∈ [("AP", (false, 7%N, 1))].*1 ↔ name ∈ [("AP", 1); ("AP", 2)].*1)
  ∧ (∀ name v, (name, v) ∈ [("AP", (false, 7%N, 1))] →
       ∃ idx, (name, idx) ∈ [("AP", 1); ("AP", 2)]
              ∧ float_cell ["a"; "0.5"; "0.7"] idx = Ok v)
  ∧ (∀ earlier name idx later v,
       [("AP", 1); ("AP", 2)] = earlier ++ (name, idx) :: later → name ∉ later.*1 →
       float_cell ["a"; "0.5"; "0.7"] idx = Ok v → (name, v) ∈ [("AP", (false, 7%N, 1))]).
Proof.
  refine (collect_metrics_dict ["a"; "0.5"; "0.7"] [("AP", 1); ("AP", 2)]
            [("AP", (false, 7%N, 1))] _).
  reflexivity.
Defined.

(** The sample document, for property X18 *)
Lemma parse_lines_names_witness :
  Forall block_name (loc_Architecture hrnet_locals)
  ∧ Forall (λ m, block_name (meta_TrainingData (model_Metadata m)))
      (loc_models hrnet_locals).
Proof.
  apply (parse_lines_names "hrnet_coco" "2D Body Keypoint" Sample.hrnet_lines).
  reflexivity.
Defined.

(** A title and a line of text, for property X19 *)
Lemma plain_text_witness :
  parse_lines "hrnet_coco" "2D Body Keypoint" (readlines (Sample.text ["# Title"; "body"]))
  = Ok init_locals.
Proof.
  apply (plain_text "hrnet_coco" "2D Body Keypoint" (Sample.text ["# Title"; "body"])).
  by repeat constructor.
Defined.

(** The first dump of an empty index in the sample world, for property
    X21 *)
Lemma dump_writes_one_file_witness :
  files (dump_yaml_and_check_difference Sample.dump (ModelIndex []) Sample.index_path
           Sample.w0).2 !! Sample.index_path
  = Some (Sample.dump (ModelIndex []))
  ∧ (∀ p, p ≠ Sample.index_path →
       files (dump_yaml_and_check_difference Sample.dump (ModelIndex []) Sample.index_path
                Sample.w0).2 !! p
       = files Sample.w0 !! p)
  ∧ (files Sample.w0 !! Sample.index_path = None → true = true)
  ∧ (true = false →
       ∃ before, files Sample.w0 !! Sample.index_path = Some before
                 ∧ universal_newlines before
                   = universal_newlines (Sample.dump (ModelIndex []))).
Proof.
  apply (dump_writes_one_file Sample.dump (ModelIndex []) Sample.index_path Sample.w0).
  by vm_compute.
Defined.

(** The sample document is an input of its run, for property X23 *)
Lemma main_frame_witness :
  files (Sample.main [Sample.hrnet_path] Sample.w0).2 !! Sample.hrnet_path
  = files Sample.w0 !! Sample.hrnet_path.
Proof.
  apply (main_frame Sample.root Sample.relpath Sample.glob_yml Sample.dump
           [Sample.hrnet_path] Sample.w0 Sample.hrnet_path).
  refine (bool_decide_unpack _ _). by vm_compute.
Defined.

(** A first run on the sample document, for property X24 *)
Lemma outputs_exist_witness :
  Forall (λ p, is_Some (files Sample.after_first_run !! p))
    (outputs_of Sample.root (file_list_of [Sample.hrnet_path])).
Proof.
  apply (outputs_exist Sample.root Sample.relpath Sample.glob_yml Sample.dump
           [Sample.hrnet_path] Sample.w0 1%Z).
  - discriminate.
  - by vm_compute.
Defined.

(** Two summary documents, for property X25 *)
Lemma readme_only_run_witness :
  Sample.main ["configs/README.md"; "README.md"] Sample.w0 = (Ok 0%Z, Sample.w0).
Proof.
  apply (readme_only_run Sample.root Sample.relpath Sample.glob_yml Sample.dump
           ["configs/README.md"; "README.md"] Sample.w0).
  by repeat constructor.
Defined.

(** A document that does not exist, for property X26 *)
Lemma parse_md_unreadable_witness :
  ∃ e, Sample.parse_md "configs/body/2d_kpt/foo/coco/none.md" Sample.w0
       = (Raise e, Sample.w0)
       ∧ ("configs/body/2d_kpt/foo/coco/none.md" = "" → e = ValueError).
Proof.
  apply (parse_md_unreadable Sample.relpath Sample.dump
           "configs/body/2d_kpt/foo/coco/none.md" Sample.w0).
  right. right. reflexivity.
Defined.

(** The descriptor of the sample document, for property X27 *)
Lemma descriptor_collection_witness :
  ∃ c models,
    ModelFile hrnet_collection [Sample.bar_model] = ModelFile c models
    ∧ coll_Name c = "hrnet_coco"
    ∧ coll_README c
      = Sample.relpath ("configs/body/2d_kpt/foo/coco" +:+ "/" +:+ "hrnet_coco" +:+ "." +:+ "md")
    ∧ Forall (λ m, model_InCollection m = "hrnet_coco") models.
Proof.
  apply (descriptor_collection Sample.relpath "configs/body/2d_kpt/foo/coco" "hrnet_coco" "md"
           Sample.fs0); reflexivity.
Defined.

